(** * book_flight.py: a shallow embedding and its verified properties

    The program is a straight-line command-line client: it parses the
    command line, turns the parsed arguments into a search payload, issues
    one GET, one POST and prints the booking reference.  Every failure is a
    print followed by [sys.exit].

    The embedding keeps what the Python code relies on:
    - values are dynamically typed ([pyval]);
    - the [Namespace] returned by [parse_args] is an object whose attribute
      dictionary lives in a store, so that [vars(args)] is an alias of it;
    - printing, process exit, uncaught exceptions and HTTP requests are
      effects of a small state-and-exit monad whose state holds the store
      and the trace of observable events;
    - the library functions the program calls ([datetime.strptime],
      [strftime], [argparse], [requests]) are modelled from their documented
      behaviour, next to the place where the program calls them. *)

From Stdlib Require Import ZArith Ascii String List Lia.
From Stdlib Require Import Floats.SpecFloat.
From stdpp Require Import gmap strings list fin_maps.

(** ** The part of [datetime] the program uses *)

Module Datetime.
Local Open Scope Z_scope.

Definition MINYEAR : Z := 1.
Definition MAXYEAR : Z := 9999.

Record date := mkdate { year : Z; month : Z; day : Z }.

Definition _is_leap (y : Z) : bool :=
  (y mod 4 =? 0) && (negb (y mod 100 =? 0) || (y mod 400 =? 0)).

Definition _DAYS_IN_MONTH : list Z :=
  [0; 31; 28; 31; 30; 31; 30; 31; 31; 30; 31; 30; 31].

Definition _days_in_month (y m : Z) : Z :=
  if (m =? 2) && _is_leap y then 29
  else nth (Z.to_nat m) _DAYS_IN_MONTH 0.

(** The check the [datetime] constructor performs; a failure is a
    [ValueError]. *)
Definition _check_date_fields (y m d : Z) : bool :=
  (MINYEAR <=? y) && (y <=? MAXYEAR) &&
  (1 <=? m) && (m <=? 12) &&
  (1 <=? d) && (d <=? _days_in_month y m).

(** A format is the list of its directives: ['%Y-%m-%d'] is
    [[DY; DLit "-"; Dm; DLit "-"; Dd]]. *)
Inductive directive := DY | Dm | Dd | DLit (c : ascii).

Definition fmt_Y_m_d : list directive :=
  [DY; DLit "-"; Dm; DLit "-"; Dd].          (* '%Y-%m-%d' *)
Definition fmt_d_m_Y : list directive :=
  [Dd; DLit "/"; Dm; DLit "/"; DY].          (* '%d/%m/%Y' *)

(** *** [strptime]

    [_strptime] turns the format into a regular expression, matches it at
    the start of the string, requires the match to cover the whole string
    and builds the date from the captured groups.  The matcher below is the
    backtracking one: every piece returns its matches in the order the
    regular expression engine tries them, and the first overall match is
    the one [re.match] returns.  Strings are sequences of characters with
    codes below 256, among which [\d] matches exactly [0]..[9]. *)

Definition digit (c : ascii) : option Z :=
  let n := Z.of_nat (nat_of_ascii c) in
  if (48 <=? n) && (n <=? 57) then Some (n - 48) else None.

(** [[lo-hi]]: one digit in the given range, with its value. *)
Definition range (lo hi : Z) (s : string) : list (Z * string) :=
  match s with
  | String c rest =>
      match digit c with
      | Some v => if (lo <=? v) && (v <=? hi) then [(v, rest)] else []
      | None => []
      end
  | EmptyString => []
  end.

Definition lit (c : ascii) (s : string) : list string :=
  match s with
  | String c' rest => if Ascii.eqb c c' then [rest] else []
  | EmptyString => []
  end.

(** [(?P<Y>\d\d\d\d)] *)
Definition re_Y (s : string) : list (Z * string) :=
  '(a, s1) ← range 0 9 s;
  '(b, s2) ← range 0 9 s1;
  '(c, s3) ← range 0 9 s2;
  '(d, s4) ← range 0 9 s3;
  [(1000 * a + 100 * b + 10 * c + d, s4)].

(** [(?P<m>1[0-2]|0[1-9]|[1-9])] *)
Definition re_m (s : string) : list (Z * string) :=
  (s1 ← lit "1" s; '(v, s2) ← range 0 2 s1; [(10 + v, s2)])
  ++ (s1 ← lit "0" s; range 1 9 s1)
  ++ range 1 9 s.

(** [(?P<d>3[0-1]|[1-2]\d|0[1-9]|[1-9]| [1-9])] *)
Definition re_d (s : string) : list (Z * string) :=
  (s1 ← lit "3" s; '(v, s2) ← range 0 1 s1; [(30 + v, s2)])
  ++ ('(u, s1) ← range 1 2 s; '(v, s2) ← range 0 9 s1; [(10 * u + v, s2)])
  ++ (s1 ← lit "0" s; range 1 9 s1)
  ++ range 1 9 s
  ++ (s1 ← lit " " s; range 1 9 s1).

(** The groups captured so far. *)
Record found := mkfound { fY : option Z; fm : option Z; fd : option Z }.

Definition no_group : found := mkfound None None None.

Fixpoint re_match (fmt : list directive) (s : string) (f : found)
  : list (found * string) :=
  match fmt with
  | [] => [(f, s)]
  | DY :: fmt' =>
      '(v, s') ← re_Y s; re_match fmt' s' (mkfound (Some v) (fm f) (fd f))
  | Dm :: fmt' =>
      '(v, s') ← re_m s; re_match fmt' s' (mkfound (fY f) (Some v) (fd f))
  | Dd :: fmt' =>
      '(v, s') ← re_d s; re_match fmt' s' (mkfound (fY f) (fm f) (Some v))
  | DLit c :: fmt' =>
      s' ← lit c s; re_match fmt' s' f
  end.

(** [None] stands for the [ValueError] that [strptime] raises: no match,
    unconverted data after the match, or fields that are not a date. *)
Definition strptime (data_string : string) (fmt : list directive)
  : option date :=
  match re_match fmt data_string no_group with
  | [] => None
  | (f, rest) :: _ =>
      match rest with
      | EmptyString =>
          let y := default 1900 (fY f) in
          let m := default 1 (fm f) in
          let d := default 1 (fd f) in
          if _check_date_fields y m d then Some (mkdate y m d) else None
      | String _ _ => None
      end
  end.

(** *** [strftime]

    [datetime.strftime] hands the format to the C library.  [%d] and [%m]
    are zero-padded to two digits; [%Y] is the year as a decimal number,
    which the C library writes without padding: [2024], but [999] for the
    year 999. *)

Definition digit_char (k : Z) : ascii := ascii_of_nat (Z.to_nat (48 + k)).

Definition pad2 (n : Z) : string :=
  String (digit_char (n / 10)) (String (digit_char (n mod 10)) EmptyString).

Definition pad4 (n : Z) : string :=
  String (digit_char (n / 1000))
    (String (digit_char (n / 100 mod 10)) (pad2 (n mod 100))).

(** The decimal digits of [n], for [0 <= n <= 9999]. *)
Definition decimal (n : Z) : string :=
  if n <? 10 then String (digit_char n) EmptyString
  else if n <? 100 then pad2 n
  else if n <? 1000 then String (digit_char (n / 100)) (pad2 (n mod 100))
  else pad4 n.

Definition strftime_directive (dt : date) (d : directive) : string :=
  match d with
  | DY => decimal (year dt)
  | Dm => pad2 (month dt)
  | Dd => pad2 (day dt)
  | DLit c => String c EmptyString
  end.

Fixpoint strftime (dt : date) (fmt : list directive) : string :=
  match fmt with
  | [] => EmptyString
  | d :: fmt' => (strftime_directive dt d ++ strftime dt fmt')%string
  end.

(** [date.isoformat()], the [YYYY-MM-DD] text of a date: the year is
    zero-padded to four digits. *)
Definition isoformat (dt : date) : string :=
  (pad4 (year dt) ++ String "-" (pad2 (month dt) ++ String "-" (pad2 (day dt))))%string.

Definition valid_date (dt : date) : Prop :=
  _check_date_fields (year dt) (month dt) (day dt) = true.

End Datetime.

(** ** Python values, the store and the effects *)

(** Values of the dynamically typed program: what [json] decoding produces,
    and what the attributes of a [Namespace] hold. *)
#[warnings="-register-all"]
Inductive pyval : Type :=
  | VNone
  | VBool (b : bool)
  | VInt (z : Z)
  | VFloat (f : spec_float)
  | VStr (s : string)
  | VList (l : list pyval)
  | VDict (d : gmap string pyval).

(** [v == 0]: an [int], a [bool] (a subclass of [int]) or a [float] can be
    equal to the integer zero, nothing else is. *)
Definition py_eq_zero (v : pyval) : bool :=
  match v with
  | VInt z => (z =? 0)%Z
  | VBool b => negb b
  | VFloat (S754_zero _) => true
  | _ => false
  end.

(** [v == s] for a string literal [s]. *)
Definition py_eq_str (v : pyval) (s : string) : bool :=
  match v with
  | VStr t => String.eqb t s
  | _ => false
  end.

Inductive exn :=
  | KeyError (key : pyval)
  | IndexError
  | TypeError
  | AttributeError (name : string)
  | JSONDecodeError
  | RequestException (what : string).

(** A [requests.Response]: [json_body] is what [.json()] returns, [None]
    when it raises [JSONDecodeError]. *)
Record Response := mkResponse { status_code : Z; json_body : option pyval }.

Inductive http_method := GET | POST.

(** What calling [requests.get] or [requests.post] can do. *)
Inductive net_result :=
  | Responded (r : Response)
  | ConnectionError (err : string)
  | OtherFailure (e : exn).

(** What [print] is given; [str(x)] of a value or of a response is kept
    symbolic. *)
Inductive message :=
  | Text (s : string)                         (* print(s) *)
  | TextStr (s : string) (v : pyval)          (* print(s + str(v)) *)
  | TextResponse (s : string) (r : Response)  (* print(s + str(r)) *)
  | ErrorText (err : string)                  (* print(err) *)
  | StrOf (v : pyval).                        (* print(v) *)

Inductive event :=
  | Print (m : message)
  | Usage (error : string)       (* argparse: usage and error on stderr *)
  | Help                         (* argparse: the help text *)
  | Request (method : http_method) (url : string)
            (params : option (gmap string pyval)) (json : option pyval).

Definition loc := nat.

(** The store maps the address of an object to its dictionary; the trace
    is what the process has printed and requested so far. *)
Record state := mkstate {
  heap : gmap loc (gmap string pyval);
  trace : list event
}.

Definition initial_state : state := mkstate ∅ [].

Inductive outcome (A : Type) :=
  | Ret (a : A)           (* normal return *)
  | Exit (code : Z)       (* sys.exit(code) *)
  | Raise (e : exn).      (* an exception nothing catches *)
Arguments Ret {A} a.
Arguments Exit {A} code.
Arguments Raise {A} e.

Definition M (A : Type) : Type := state → outcome A * state.

Definition ret {A} (a : A) : M A := λ σ, (Ret a, σ).

Definition bind {A B} (c : M A) (k : A → M B) : M B :=
  λ σ, match c σ with
       | (Ret a, σ') => k a σ'
       | (Exit code, σ') => (Exit code, σ')
       | (Raise e, σ') => (Raise e, σ')
       end.

Notation "x <- c ;; k" := (bind c (λ x, k))
  (at level 100, c at next level, right associativity).
Notation "c ;; k" := (bind c (λ _, k))
  (at level 100, right associativity).

Definition sys_exit {A} (code : Z) : M A := λ σ, (Exit code, σ).
Definition raise {A} (e : exn) : M A := λ σ, (Raise e, σ).

Definition emit (e : event) : M unit :=
  λ σ, (Ret tt, mkstate (heap σ) (trace σ ++ [e])).

Definition print (m : message) : M unit := emit (Print m).

(** A new object with the given attribute dictionary. *)
Definition alloc (d : gmap string pyval) : M loc :=
  λ σ, let l := fresh (dom (heap σ)) in
       (Ret l, mkstate (<[l := d]> (heap σ)) (trace σ)).

(** The dictionary at an address; the program only follows references it
    was given, a dangling one has no Python counterpart. *)
Definition deref (l : loc) : M (gmap string pyval) :=
  λ σ, match heap σ !! l with
       | Some d => (Ret d, σ)
       | None => (Raise TypeError, σ)
       end.

Definition store (l : loc) (d : gmap string pyval) : M unit :=
  λ σ, (Ret tt, mkstate (<[l := d]> (heap σ)) (trace σ)).

(** [obj.name] *)
Definition getattr (l : loc) (name : string) : M pyval :=
  d <- deref l ;;
  match d !! name with
  | Some v => ret v
  | None => raise (AttributeError name)
  end.

(** [d[key]] on a dictionary object of the store *)
Definition getitem (l : loc) (key : string) : M pyval :=
  d <- deref l ;;
  match d !! key with
  | Some v => ret v
  | None => raise (KeyError (VStr key))
  end.

(** [d[key] = v] *)
Definition setitem (l : loc) (key : string) (v : pyval) : M unit :=
  d <- deref l ;; store l (<[key := v]> d).

(** [d.pop(key, None)], result dropped *)
Definition pop_default (l : loc) (key : string) : M unit :=
  d <- deref l ;; store l (delete key d).

(** [v[key]] for a string key, on a decoded JSON value *)
Definition subscript_str (v : pyval) (key : string) : M pyval :=
  match v with
  | VDict d =>
      match d !! key with
      | Some x => ret x
      | None => raise (KeyError (VStr key))
      end
  | _ => raise TypeError
  end.

(** [v[0]] *)
Definition subscript_0 (v : pyval) : M pyval :=
  match v with
  | VList (x :: _) => ret x
  | VList [] => raise IndexError
  | VStr (String c _) => ret (VStr (String c EmptyString))
  | VStr EmptyString => raise IndexError
  | VDict _ => raise (KeyError (VInt 0))
  | _ => raise TypeError
  end.

(** ** The part of [argparse] the program uses

    A parser is the table of its actions, in the order [add_argument] was
    called, with its mutually exclusive groups.  The engine follows
    [ArgumentParser.parse_args] for a parser without positional arguments
    on command lines whose tokens are [plain]: option strings written in
    full, and values that do not start with a dash.  Abbreviated options,
    [--opt=value], the [--] separator and values starting with a dash are
    left out: the engine treats them as unknown options, and the theorems
    about rejected command lines are stated for plain tokens. *)

Module Argparse.

Inductive arg_type := TStr | TInt.

Inductive action_kind :=
  | Store (type : arg_type)        (* the default action, one argument *)
  | StoreConst (const : pyval)     (* action="store_const" *)
  | HelpAction.                    (* -h, --help, added by the constructor *)

Record Action := mkAction {
  option_strings : list string;
  dest : string;
  kind : action_kind;
  default_value : pyval;
  required : bool
}.

Record ArgumentParser := mkParser {
  actions : list Action;
  (* each group lists the [dest]-independent names of its members: their
     first option string *)
  mutually_exclusive_groups : list (list string)
}.

Definition action_name (a : Action) : string :=
  default EmptyString (head (option_strings a)).

Inductive parse_outcome :=
  | Parsed (namespace : gmap string pyval)   (* vars() of the Namespace *)
  | ArgError (message : string)              (* parser.error: exit code 2 *)
  | HelpRequested.                           (* print_help, exit code 0 *)

(** *** [int(s)] on a string *)

Definition is_space (c : ascii) : bool :=
  let n := nat_of_ascii c in
  ((9 <=? n) && (n <=? 13)) || ((28 <=? n) && (n <=? 32))
  || (n =? 133) || (n =? 160).

Fixpoint lstrip (s : string) : string :=
  match s with
  | String c rest => if is_space c then lstrip rest else s
  | EmptyString => EmptyString
  end.

Definition strip (s : string) : string :=
  String.rev (lstrip (String.rev (lstrip s))).

(** Decimal digits, single underscores allowed between digits. *)
Fixpoint digits_value (s : string) (acc : Z) (after_digit : bool)
  : option Z :=
  match s with
  | EmptyString => if after_digit then Some acc else None
  | String c rest =>
      match Datetime.digit c with
      | Some v => digits_value rest (10 * acc + v)%Z true
      | None =>
          if Ascii.eqb c "_" && after_digit
          then digits_value rest acc false
          else None
      end
  end.

(** [None] stands for [ValueError]. *)
Definition py_int (s : string) : option Z :=
  match strip s with
  | String "-" rest => Z.opp <$> digits_value rest 0%Z false
  | String "+" rest => digits_value rest 0%Z false
  | t => digits_value t 0%Z false
  end.

(** [_get_value]: the [type] function applied to the argument string. *)
Definition _get_value (t : arg_type) (arg_string : string) : option pyval :=
  match t with
  | TStr => Some (VStr arg_string)
  | TInt => VInt <$> py_int arg_string
  end.

(** *** Classifying the tokens *)

Inductive token_class :=
  | TokArg                    (* 'A': a value or a positional *)
  | TokOpt (a : Action)       (* 'O': a known option string *)
  | TokUnknown.               (* 'O': starts with a dash, no such option *)

Definition find_action (p : ArgumentParser) (s : string) : option Action :=
  find (λ a, bool_decide (s ∈ option_strings a)) (actions p).

Definition _parse_optional (p : ArgumentParser) (arg_string : string)
  : token_class :=
  match arg_string with
  | EmptyString => TokArg
  | String c _ =>
      if Ascii.eqb c "-" then
        match find_action p arg_string with
        | Some a => TokOpt a
        | None => TokUnknown
        end
      else TokArg
  end.

Definition plain (p : ArgumentParser) (arg_string : string) : Prop :=
  _parse_optional p arg_string ≠ TokUnknown.

(** *** The scan *)

Record scan := mkscan {
  namespace : gmap string pyval;
  seen_actions : list string;
  extras : list string
}.

(** The attributes start at the defaults, the first action of a [dest]
    deciding; the help action has no attribute. *)
Fixpoint set_defaults (acts : list Action) (ns : gmap string pyval)
  : gmap string pyval :=
  match acts with
  | [] => ns
  | a :: acts' =>
      match kind a, ns !! dest a with
      | HelpAction, _ => set_defaults acts' ns
      | _, Some _ => set_defaults acts' ns
      | _, None => set_defaults acts' (<[dest a := default_value a]> ns)
      end
  end.

(** The members of the groups of [name], [name] itself left out. *)
Definition action_conflicts (p : ArgumentParser) (name : string)
  : list string :=
  g ← mutually_exclusive_groups p;
  if bool_decide (name ∈ g)
  then filter (λ other, other ≠ name) g
  else [].

(** [take_action] for the storing actions: the value is converted, the
    action is checked against the members of its groups seen before it,
    then the attribute is set. *)
Definition take_action (p : ArgumentParser) (a : Action)
    (value : option pyval) (st : scan) : scan + string :=
  match value with
  | None => inr "invalid value"%string
  | Some v =>
      match
        find (λ c, bool_decide (c ∈ seen_actions st))
             (action_conflicts p (action_name a))
      with
      | Some c => inr ("not allowed with argument " ++ c)%string
      | None =>
          inl (mkscan (<[dest a := v]> (namespace st))
                      (action_name a :: seen_actions st)
                      (extras st))
      end
  end.

Definition is_arg (p : ArgumentParser) (s : string) : bool :=
  match _parse_optional p s with TokArg => true | _ => false end.

(** After the scan: a required action not seen, then leftover tokens. *)
Definition finish (p : ArgumentParser) (st : scan) : parse_outcome :=
  match
    find (λ a, required a && negb (bool_decide (action_name a ∈ seen_actions st)))
         (actions p)
  with
  | Some a => ArgError "the following arguments are required"
  | None =>
      match extras st with
      | [] => Parsed (namespace st)
      | _ :: _ => ArgError "unrecognized arguments"
      end
  end.

Fixpoint consume (p : ArgumentParser) (arg_strings : list string)
    (st : scan) : parse_outcome :=
  match arg_strings with
  | [] => finish p st
  | tok :: rest =>
      match _parse_optional p tok with
      | TokArg | TokUnknown =>
          consume p rest
            (mkscan (namespace st) (seen_actions st) (extras st ++ [tok]))
      | TokOpt a =>
          match kind a with
          | HelpAction => HelpRequested
          | StoreConst c =>
              match take_action p a (Some c) st with
              | inl st' => consume p rest st'
              | inr msg => ArgError msg
              end
          | Store t =>
              match rest with
              | v :: rest' =>
                  if is_arg p v then
                    match take_action p a (_get_value t v) st with
                    | inl st' => consume p rest' st'
                    | inr msg => ArgError msg
                    end
                  else ArgError "expected one argument"
              | [] => ArgError "expected one argument"
              end
          end
      end
  end.

Definition parse_args (p : ArgumentParser) (argv : list string)
  : parse_outcome :=
  consume p argv (mkscan (set_defaults (actions p) ∅) [] []).

End Argparse.

(** ** The program *)

Module BookFlight.
Import Datetime Argparse.
Local Open Scope string_scope.

(** hardcoded passenger and currency settings. *)
Definition passenger_info : pyval :=
  VDict (<["title" := VStr "Mr"]> (<["firstName" := VStr "A"]>
        (<["documentID" := VStr "0"]> (<["birthday" := VStr "2016-05-20"]>
        (<["email" := VStr "a@a.com"]> (<["lastName" := VStr "B"]> ∅)))))).

Definition currency : pyval := VStr "EUR".

Definition create_arg_parser : ArgumentParser :=
  mkParser
    [ mkAction ["-h"; "--help"] "help" HelpAction VNone false;
      mkAction ["--date"] "dateFrom" (Store TStr) VNone true;
      mkAction ["--from"] "flyFrom" (Store TStr) VNone true;
      mkAction ["--to"] "to" (Store TStr) VNone true;
      mkAction ["--one-way"] "typeFlight" (StoreConst (VStr "oneway")) VNone false;
      mkAction ["--return"] "daysInDestination" (Store TInt) VNone false;
      mkAction ["--cheapest"] "sort" (StoreConst (VStr "price")) (VStr "price") false;
      mkAction ["--shortest"] "sort" (StoreConst (VStr "duration")) VNone false ]
    [ ["--one-way"; "--return"];       (* return_or_one_way *)
      ["--cheapest"; "--shortest"] ].  (* cheap_or_short *)

Definition date_format_message : string :=
  "Incorrect date format. Enter date of departure as YYYY-MM-DD.".

(** [args] is the address of the Namespace; [vars(args)] is its attribute
    dictionary itself, so [payload] is the same address. *)
Definition format_payload_for_get_request (args : loc) : M loc :=
  let payload := args in
  days <- getattr args "daysInDestination" ;;
  match days with
  | VNone =>
      setitem payload "typeFlight" (VStr "oneway") ;;
      pop_default payload "daysInDestination"
  | _ =>
      setitem payload "typeFlight" (VStr "return")
  end ;;
  date_from <- getitem payload "dateFrom" ;;
  match date_from with
  | VStr s =>
      match strptime s fmt_Y_m_d with
      | Some dt =>
          setitem payload "dateFrom" (VStr (strftime dt fmt_d_m_Y)) ;;
          ret payload
      | None =>
          print (Text date_format_message) ;;
          sys_exit 2
      end
  | _ => raise TypeError
  end.

Section Network.

(** What the network answers to a request. *)
Variable network :
  http_method → string → option (gmap string pyval) → option pyval → net_result.

Definition no_response_message : string :=
  "No response from server. Check your internet connection.".

Definition request_server_response (request : http_method) (url : string)
    (params : option (gmap string pyval)) (json_payload : option pyval)
  : M Response :=
  emit (Request request url params json_payload) ;;
  match network request url params json_payload with
  | Responded r => ret r
  | ConnectionError err =>
      print (Text no_response_message) ;;
      print (ErrorText err) ;;
      sys_exit 1
  | OtherFailure e => raise e
  end.

Definition invalid_response_message : string :=
  "Invalid response from server. Server is probably offline.
Server responded with ".

Definition parse_json (json_response : Response) : M pyval :=
  match json_body json_response with
  | Some v => ret v
  | None =>
      print (TextResponse invalid_response_message json_response) ;;
      sys_exit 1
  end.

Definition search_url : string := "https://api.skypicker.com/flights?".

Definition no_flights_message : string :=
  "No flights found. Check spelling of parameters. Use -h or --help for more information.".

Definition find_flight (payload : loc) : M pyval :=
  params <- deref payload ;;
  flight_search <- request_server_response GET search_url (Some params) None ;;
  flight_search_results <- parse_json flight_search ;;
  results <- subscript_str flight_search_results "_results" ;;
  (if py_eq_zero results
   then print (Text no_flights_message) ;; sys_exit 1
   else ret tt) ;;
  data <- subscript_str flight_search_results "data" ;;
  first <- subscript_0 data ;;
  subscript_str first "booking_token".

Definition booking_url : string := "http://37.139.6.125:8080/booking".

Definition invalid_booking_message : string :=
  "Invalid response from booking server.
Server responded with ".

Definition booking_failed_message : string :=
  "Booking not successful
".

(** The JSON body of the booking request. *)
Definition booking_payload (token pass_info currency_name : pyval) : pyval :=
  VDict (<["currency" := currency_name]> (<["booking_token" := token]>
        (<["passengers" := pass_info]> ∅))).

Definition book_flight (token pass_info currency_name : pyval) : M pyval :=
  booking <-
    request_server_response POST booking_url None
      (Some (booking_payload token pass_info currency_name)) ;;
  booking_confirmation <-
    match json_body booking with
    | Some v => ret v
    | None =>
        print (TextResponse invalid_booking_message booking) ;;
        sys_exit 1
    end ;;
  status <- subscript_str booking_confirmation "status" ;;
  if py_eq_str status "confirmed"
  then
    (* booking.json() once more, this time outside the try *)
    again <- match json_body booking with
             | Some v => ret v
             | None => raise JSONDecodeError
             end ;;
    subscript_str again "pnr"
  else
    print (TextStr booking_failed_message booking_confirmation) ;;
    sys_exit 1.

Definition main (argv : list string) : M unit :=
  args <-
    match parse_args create_arg_parser argv with
    | Parsed namespace => alloc namespace
    | ArgError message => emit (Usage message) ;; sys_exit 2
    | HelpRequested => emit Help ;; sys_exit 0
    end ;;
  search_payload <- format_payload_for_get_request args ;;
  booking_token <- find_flight search_payload ;;
  pnr_number <- book_flight booking_token passenger_info currency ;;
  print (StrOf pnr_number).

End Network.

End BookFlight.

(** * Properties *)

(** ** Dates: [strptime] inverts [strftime] on both formats *)

Module DatetimeFacts.
Import Datetime.
Local Open Scope Z_scope.

(** Case analysis on an integer known to lie in [0 .. n-1]. *)
Tactic Notation "enum_Z" constr(k) integer(n) tactic3(tac) :=
  let m := fresh "m" in
  let Hm := fresh "Hm" in
  remember (Z.to_nat k) as m eqn:Hm;
  assert (k = Z.of_nat m) by lia;
  clear Hm; subst k;
  do n (destruct m as [|m]; [tac|]);
  try (exfalso; lia).

(** Evaluate a match on a concrete prefix, the rest of the format and of
    the string being arbitrary. *)
Ltac run_match :=
  first [ exfalso; lia
        | cbn [re_match];
          do 4 (cbv -[re_match app]; cbn [app]);
          rewrite ?app_nil_r; reflexivity ].

Lemma range_digit_char lo hi k rest :
  0 <= k <= 9 →
  range lo hi (String (digit_char k) rest)
  = if (lo <=? k) && (k <=? hi) then [(k, rest)] else [].
Proof.
  intros Hk. enum_Z k 10 reflexivity.
Qed.

Lemma re_Y_pad4 y rest :
  0 <= y <= 9999 →
  re_Y (pad4 y ++ rest) = [(y, rest)].
Proof.
  intros Hy. unfold re_Y, pad4, pad2. cbv [String.append].
  assert (0 <= y / 1000 <= 9) by (Z.to_euclidean_division_equations; lia).
  assert (0 <= y / 100 mod 10 <= 9) by (Z.to_euclidean_division_equations; lia).
  assert (0 <= y mod 100 / 10 <= 9) by (Z.to_euclidean_division_equations; lia).
  assert (0 <= y mod 100 mod 10 <= 9) by (Z.to_euclidean_division_equations; lia).
  rewrite range_digit_char by assumption.
  replace ((0 <=? y / 1000) && (y / 1000 <=? 9)) with true by lia.
  cbn [mbind list_bind]. 
  rewrite range_digit_char by assumption.
  replace ((0 <=? y / 100 mod 10) && (y / 100 mod 10 <=? 9)) with true by lia.
  cbn [mbind list_bind].
  rewrite range_digit_char by assumption.
  replace ((0 <=? y mod 100 / 10) && (y mod 100 / 10 <=? 9)) with true by lia.
  cbn [mbind list_bind].
  rewrite range_digit_char by assumption.
  replace ((0 <=? y mod 100 mod 10) && (y mod 100 mod 10 <=? 9)) with true by lia.
  cbn [mbind list_bind app].
  do 2 f_equal. Z.to_euclidean_division_equations; lia.
Qed.
Lemma re_match_Y fmt y rest f :
  0 <= y <= 9999 →
  re_match (DY :: fmt) (pad4 y ++ rest) f
  = re_match fmt rest (mkfound (Some y) (fm f) (fd f)).
Proof.
  intros Hy. cbn [re_match]. rewrite re_Y_pad4 by assumption.
  cbn [mbind list_bind]. apply app_nil_r.
Qed.

Lemma re_match_lit fmt c rest f :
  re_match (DLit c :: fmt) (String c rest) f = re_match fmt rest f.
Proof.
  cbn [re_match lit]. rewrite Ascii.eqb_refl.
  cbn [mbind list_bind]. apply app_nil_r.
Qed.

(** A separator of the two formats. *)
Definition is_sep (c : ascii) : Prop := c = "-"%char ∨ c = "/"%char.

(** Behind a month or a day comes a separator: the alternatives that read
    one digit where two were written fail on it, and the match of the two
    digits is the only one. *)
Lemma re_match_m_sep fmt m c rest f :
  1 <= m <= 12 → is_sep c →
  re_match (Dm :: DLit c :: fmt) (pad2 m ++ String c rest) f
  = re_match fmt rest (mkfound (fY f) (Some m) (fd f)).
Proof.
  intros Hm [-> | ->]; enum_Z m 13 run_match.
Qed.

Lemma re_match_d_sep fmt d c rest f :
  1 <= d <= 31 → is_sep c →
  re_match (Dd :: DLit c :: fmt) (pad2 d ++ String c rest) f
  = re_match fmt rest (mkfound (fY f) (fm f) (Some d)).
Proof.
  intros Hd [-> | ->]; enum_Z d 32 run_match.
Qed.

(** At the end of the format the first match is the one of both digits. *)
Lemma re_match_d_end d f :
  1 <= d <= 31 →
  head (re_match [Dd] (pad2 d) f)
  = Some (mkfound (fY f) (fm f) (Some d), EmptyString).
Proof.
  intros Hd. enum_Z d 32 run_match.
Qed.

Lemma _days_in_month_le y m : _days_in_month y m <= 31.
Proof.
  unfold _days_in_month. destruct ((m =? 2) && _is_leap y); [lia|].
  destruct (Z.to_nat m) as [|k]; [cbn; lia|].
  do 12 (destruct k as [|k]; [cbn; lia|]).
  destruct k; cbn; lia.
Qed.

Lemma valid_date_bounds dt :
  valid_date dt →
  1 <= year dt <= 9999 ∧ 1 <= month dt <= 12 ∧ 1 <= day dt <= 31.
Proof.
  unfold valid_date, _check_date_fields, MINYEAR, MAXYEAR. intros H.
  pose proof (_days_in_month_le (year dt) (month dt)). lia.
Qed.

Lemma isoformat_eq y m d :
  isoformat (mkdate y m d)
  = (pad4 y ++ String "-" (pad2 m ++ String "-" (pad2 d)))%string.
Proof. reflexivity. Qed.

Lemma strftime_d_m_Y_eq y m d :
  strftime (mkdate y m d) fmt_d_m_Y
  = (pad2 d ++ String "/" (pad2 m ++ String "/" (decimal y ++ "")))%string.
Proof. reflexivity. Qed.

Lemma append_empty s : (s ++ "")%string = s.
Proof.
  induction s as [|c s IH]; [reflexivity|].
  change (String c s ++ "")%string with (String c (s ++ "")%string).
  rewrite IH. reflexivity.
Qed.

(** From the year 1000 on the year has its four digits. *)
Lemma decimal_pad4 y : 1000 <= y → decimal y = pad4 y.
Proof.
  intros Hy. unfold decimal.
  replace (y <? 10) with false by lia.
  replace (y <? 100) with false by lia.
  replace (y <? 1000) with false by lia.
  reflexivity.
Qed.

Lemma decimal_short y : y < 1000 → (String.length (decimal y) < 4)%nat.
Proof.
  intros Hy. unfold decimal.
  destruct (y <? 10); [cbn; lia|].
  destruct (y <? 100); [cbn; lia|].
  replace (y <? 1000) with true by lia. cbn. lia.
Qed.

(** ['%Y'] wants four digits. *)
Lemma re_Y_short s : (String.length s < 4)%nat → re_Y s = [].
Proof.
  intros Hs. unfold re_Y.
  destruct s as [|a s]; [reflexivity|]. cbn [range].
  destruct (digit a) as [va|]; [|reflexivity].
  destruct ((0 <=? va) && (va <=? 9)); [|reflexivity].
  cbn [mbind list_bind].
  destruct s as [|b s]; [reflexivity|]. cbn [range].
  destruct (digit b) as [vb|]; [|reflexivity].
  destruct ((0 <=? vb) && (vb <=? 9)); [|reflexivity].
  cbn [mbind list_bind].
  destruct s as [|c s]; [reflexivity|]. cbn [range].
  destruct (digit c) as [vc|]; [|reflexivity].
  destruct ((0 <=? vc) && (vc <=? 9)); [|reflexivity].
  cbn [mbind list_bind].
  destruct s as [|d s]; [reflexivity|]. cbn in Hs. lia.
Qed.

(** Parsing the ISO text of a date gives the date back. *)
Lemma strptime_isoformat dt :
  valid_date dt → strptime (isoformat dt) fmt_Y_m_d = Some dt.
Proof.
  intros Hv. destruct (valid_date_bounds dt Hv) as (Hy & Hm & Hd).
  destruct dt as [y m d]. cbn [year month day] in *.
  unfold strptime, fmt_Y_m_d. rewrite isoformat_eq.
  rewrite re_match_Y, re_match_lit by lia.
  rewrite re_match_m_sep by (assumption || (left; reflexivity)).
  pose proof (re_match_d_end d (mkfound (Some y) (Some m) None) Hd) as Hh.
  cbn [fY fm fd no_group] in *.
  destruct (re_match [Dd] (pad2 d) _) as [|[f rest] tl]; [discriminate|].
  cbn in Hh. injection Hh as -> ->.
  cbn [fY fm fd default from_option id]. unfold valid_date in Hv. cbn [year month day] in Hv.
  rewrite Hv. reflexivity.
Qed.

(** Parsing the day/month/year text of a date gives the date back when
    the year has four digits. *)
Lemma strptime_d_m_Y dt :
  valid_date dt → 1000 <= year dt →
  strptime (strftime dt fmt_d_m_Y) fmt_d_m_Y = Some dt.
Proof.
  intros Hv Hlong. destruct (valid_date_bounds dt Hv) as (Hy & Hm & Hd).
  destruct dt as [y m d]. cbn [year month day] in *.
  unfold strptime, fmt_d_m_Y. rewrite strftime_d_m_Y_eq.
  rewrite decimal_pad4 by assumption.
  rewrite re_match_d_sep by (assumption || (right; reflexivity)).
  rewrite re_match_m_sep by (assumption || (right; reflexivity)).
  rewrite re_match_Y by lia.
  cbn [re_match fY fm fd no_group default from_option id].
  unfold valid_date in Hv. cbn [year month day] in Hv.
  rewrite Hv. reflexivity.
Qed.

(** With a shorter year the text has no match. *)
Lemma strptime_d_m_Y_short dt :
  valid_date dt → year dt < 1000 →
  strptime (strftime dt fmt_d_m_Y) fmt_d_m_Y = None.
Proof.
  intros Hv Hshort. destruct (valid_date_bounds dt Hv) as (Hy & Hm & Hd).
  destruct dt as [y m d]. cbn [year month day] in *.
  unfold strptime, fmt_d_m_Y. rewrite strftime_d_m_Y_eq.
  rewrite re_match_d_sep by (assumption || (right; reflexivity)).
  rewrite re_match_m_sep by (assumption || (right; reflexivity)).
  cbn [re_match]. rewrite re_Y_short; [reflexivity|].
  pose proof (decimal_short y Hshort) as Hl.
  rewrite append_empty. exact Hl.
Qed.

End DatetimeFacts.

(** ** Running the effects *)

Module Run.

Lemma bind_Ret {A B} (c : M A) (k : A → M B) σ a σ' :
  c σ = (Ret a, σ') → bind c k σ = k a σ'.
Proof. unfold bind. intros ->. reflexivity. Qed.

Lemma bind_Exit {A B} (c : M A) (k : A → M B) σ code σ' :
  c σ = (Exit code, σ') → bind c k σ = (Exit code, σ').
Proof. unfold bind. intros ->. reflexivity. Qed.

Lemma bind_Raise {A B} (c : M A) (k : A → M B) σ e σ' :
  c σ = (Raise e, σ') → bind c k σ = (Raise e, σ').
Proof. unfold bind. intros ->. reflexivity. Qed.

(** A sequence returns only if its first part does. *)
Lemma bind_Ret_inv {A B} (c : M A) (k : A → M B) σ b σ'' :
  bind c k σ = (Ret b, σ'') →
  ∃ a σ', c σ = (Ret a, σ') ∧ k a σ' = (Ret b, σ'').
Proof.
  unfold bind. destruct (c σ) as [[a | code | e] σ']; intros H;
    [eauto | discriminate | discriminate].
Qed.

Lemma bind_assoc {A B C} (c : M A) (k1 : A → M B) (k2 : B → M C) σ :
  bind (bind c k1) k2 σ = bind c (λ a, bind (k1 a) k2) σ.
Proof. unfold bind. destruct (c σ) as [[a | code | e] σ']; reflexivity. Qed.

Lemma deref_run l σ d :
  heap σ !! l = Some d → deref l σ = (Ret d, σ).
Proof. unfold deref. intros ->. reflexivity. Qed.

Lemma getattr_run l name σ d v :
  heap σ !! l = Some d → d !! name = Some v →
  getattr l name σ = (Ret v, σ).
Proof.
  intros Hh Hv. unfold getattr.
  rewrite (bind_Ret _ _ _ _ _ (deref_run _ _ _ Hh)), Hv. reflexivity.
Qed.

Lemma getitem_run l key σ d v :
  heap σ !! l = Some d → d !! key = Some v →
  getitem l key σ = (Ret v, σ).
Proof.
  intros Hh Hv. unfold getitem.
  rewrite (bind_Ret _ _ _ _ _ (deref_run _ _ _ Hh)), Hv. reflexivity.
Qed.

Lemma setitem_run l key v σ d :
  heap σ !! l = Some d →
  setitem l key v σ
  = (Ret tt, mkstate (<[l := <[key := v]> d]> (heap σ)) (trace σ)).
Proof.
  intros Hh. unfold setitem.
  rewrite (bind_Ret _ _ _ _ _ (deref_run _ _ _ Hh)). reflexivity.
Qed.

Lemma pop_default_run l key σ d :
  heap σ !! l = Some d →
  pop_default l key σ
  = (Ret tt, mkstate (<[l := delete key d]> (heap σ)) (trace σ)).
Proof.
  intros Hh. unfold pop_default.
  rewrite (bind_Ret _ _ _ _ _ (deref_run _ _ _ Hh)). reflexivity.
Qed.

(** Nothing runs on a dangling reference. *)
Lemma getattr_Ret_inv l name σ v σ' :
  getattr l name σ = (Ret v, σ') →
  σ' = σ ∧ ∃ d, heap σ !! l = Some d ∧ d !! name = Some v.
Proof.
  unfold getattr, bind, deref, ret, raise.
  destruct (heap σ !! l) as [d|]; [|discriminate].
  destruct (d !! name) as [w|] eqn:Hw; [|discriminate].
  intros [= -> ->]. eauto.
Qed.

End Run.

(** ** The payload formatter *)

Module PayloadFacts.
Import Datetime BookFlight Run.
Local Open Scope string_scope.

(** The attribute dictionary after the trip type has been derived. *)
Definition with_trip_type (days : pyval) (d : gmap string pyval)
  : gmap string pyval :=
  match days with
  | VNone => delete "daysInDestination" (<["typeFlight" := VStr "oneway"]> d)
  | _ => <["typeFlight" := VStr "return"]> d
  end.

Lemma with_trip_type_dateFrom days d :
  with_trip_type days d !! "dateFrom" = d !! "dateFrom".
Proof.
  unfold with_trip_type. destruct days;
    rewrite ?lookup_delete_ne, ?lookup_insert_ne by discriminate; reflexivity.
Qed.

(** The first half of the function: the trip type. *)
Lemma trip_type_run args σ d days :
  heap σ !! args = Some d →
  match days with
  | VNone =>
      setitem args "typeFlight" (VStr "oneway") ;;
      pop_default args "daysInDestination"
  | _ => setitem args "typeFlight" (VStr "return")
  end σ
  = (Ret tt, mkstate (<[args := with_trip_type days d]> (heap σ)) (trace σ)).
Proof.
  intros Hh.
  destruct days; cbn [with_trip_type];
    try (apply setitem_run; assumption).
  rewrite (bind_Ret _ _ _ _ _ (setitem_run _ _ _ _ _ Hh)).
  erewrite pop_default_run by (cbn [heap]; apply lookup_insert_eq).
  cbn [heap trace]. rewrite insert_insert_eq. reflexivity.
Qed.

(** What a call does, on a Namespace that has the two attributes the
    function reads. *)
Lemma format_payload_run args σ d days s :
  heap σ !! args = Some d →
  d !! "daysInDestination" = Some days →
  d !! "dateFrom" = Some (VStr s) →
  format_payload_for_get_request args σ =
    match strptime s fmt_Y_m_d with
    | Some dt =>
        (Ret args,
         mkstate (<[args := <["dateFrom" := VStr (strftime dt fmt_d_m_Y)]>
                               (with_trip_type days d)]> (heap σ))
                 (trace σ))
    | None =>
        (Exit 2,
         mkstate (<[args := with_trip_type days d]> (heap σ))
                 (trace σ ++ [Print (Text date_format_message)]))
    end.
Proof.
  intros Hh Hdays Hdate.
  pose proof (with_trip_type_dateFrom days d) as Hwd. rewrite Hdate in Hwd.
  unfold format_payload_for_get_request.
  rewrite (bind_Ret _ _ _ _ _ (getattr_run _ _ _ _ _ Hh Hdays)).
  rewrite (bind_Ret _ _ _ _ _ (trip_type_run _ _ _ days Hh)).
  erewrite bind_Ret
    by (eapply getitem_run; [cbn [heap]; apply lookup_insert_eq | exact Hwd]).
  cbv beta iota.
  destruct (strptime s fmt_Y_m_d) as [dt|].
  - erewrite bind_Ret
      by (eapply setitem_run; cbn [heap]; apply lookup_insert_eq).
    unfold ret. cbn [heap trace]. rewrite insert_insert_eq. reflexivity.
  - reflexivity.
Qed.

(** A call that returns was given a Namespace with both attributes, a
    string as [dateFrom], and a date that parses. *)
Lemma format_payload_Ret_inv args σ payload σ' :
  format_payload_for_get_request args σ = (Ret payload, σ') →
  ∃ d days s dt,
    heap σ !! args = Some d ∧
    d !! "daysInDestination" = Some days ∧
    d !! "dateFrom" = Some (VStr s) ∧
    strptime s fmt_Y_m_d = Some dt.
Proof.
  intros Hrun.
  pose proof Hrun as Hrun'. unfold format_payload_for_get_request in Hrun'.
  apply bind_Ret_inv in Hrun' as (days & σ1 & Hget & Hrest).
  apply getattr_Ret_inv in Hget as (-> & d & Hh & Hdays).
  rewrite (bind_Ret _ _ _ _ _ (trip_type_run _ _ _ days Hh)) in Hrest.
  destruct (d !! "dateFrom") as [v|] eqn:Hdate.
  - destruct v as [| | | | s | |];
      try (exfalso; revert Hrest;
           erewrite bind_Ret
             by (eapply getitem_run;
                 [cbn [heap]; apply lookup_insert_eq
                 | rewrite with_trip_type_dateFrom; exact Hdate]);
           discriminate).
    rewrite (format_payload_run _ _ _ _ _ Hh Hdays Hdate) in Hrun.
    destruct (strptime s fmt_Y_m_d) as [dt|] eqn:Hparse; [|discriminate].
    exists d, days, s, dt. auto.
  - exfalso. revert Hrest. unfold getitem. rewrite bind_assoc.
    erewrite bind_Ret by (apply deref_run; cbn [heap]; apply lookup_insert_eq).
    rewrite with_trip_type_dateFrom, Hdate. discriminate.
Qed.

(** A call that returns hands back the address it was given and leaves
    the trace as it was. *)
Lemma format_payload_Ret_same args σ payload σ' :
  format_payload_for_get_request args σ = (Ret payload, σ') →
  payload = args ∧ trace σ' = trace σ ∧ is_Some (heap σ' !! payload).
Proof.
  intros Hrun.
  destruct (format_payload_Ret_inv _ _ _ _ Hrun)
    as (d & days & s & dt & Hh & Hdays & Hdate & Hparse).
  rewrite (format_payload_run _ _ _ _ _ Hh Hdays Hdate), Hparse in Hrun.
  injection Hrun as <- <-. cbn [heap trace].
  rewrite lookup_insert_eq. eauto.
Qed.

(** The Namespace of [--date 2024-06-01 --from NYC --to LON --return 7]
    and of the same command line without [--return], at address 0. *)
Definition return_namespace : gmap string pyval :=
  <["dateFrom" := VStr "2024-06-01"]> (<["flyFrom" := VStr "NYC"]>
  (<["to" := VStr "LON"]> (<["typeFlight" := VNone]>
  (<["daysInDestination" := VInt 7]> (<["sort" := VStr "price"]> ∅))))).

Definition oneway_namespace : gmap string pyval :=
  <["daysInDestination" := VNone]> return_namespace.

Definition bad_date_namespace : gmap string pyval :=
  <["dateFrom" := VStr "01/06/2024"]> return_namespace.

Definition state_with (d : gmap string pyval) : state :=
  mkstate (<[0%nat := d]> ∅) [].



(** The Namespace of the sample command line with the last day of the
    year 999 as its date, and with a day of the year 0. *)
Definition year_999_namespace : gmap string pyval :=
  <["dateFrom" := VStr "0999-12-31"]> return_namespace.

Definition year_0_namespace : gmap string pyval :=
  <["dateFrom" := VStr "0000-01-01"]> return_namespace.

(** What the function makes of the first date. *)
Example short_year_reformatted :
  (heap (snd (format_payload_for_get_request 0%nat
                (state_with year_999_namespace))) !! 0%nat)
    ≫= (λ p, p !! "dateFrom")
  = Some (VStr "31/12/999").
Proof. vm_compute. reflexivity. Qed.

(** C2, as stated, fails for the years before 1000: ['%Y'] writes the year
    999 without a leading zero, so [0999-12-31] becomes [31/12/999], which
    is not [DD/MM/YYYY] and does not parse back. *)
Lemma short_year_breaks_round_trip :
  ¬ (∀ args σ d days dt,
       heap σ !! args = Some d →
       d !! "daysInDestination" = Some days →
       d !! "dateFrom" = Some (VStr (isoformat dt)) →
       valid_date dt →
       ∃ σ' p out,
         format_payload_for_get_request args σ = (Ret args, σ') ∧
         heap σ' !! args = Some p ∧
         p !! "dateFrom" = Some (VStr out) ∧
         strptime out fmt_d_m_Y = Some dt).
Proof.
  intros H.
  destruct (H 0%nat (state_with year_999_namespace) year_999_namespace
              (VInt 7) (mkdate 999 12 31))
    as (σ' & p & out & Hrun & Hp & Hout & Hback); try reflexivity.
  assert (Hσ : σ' = snd (format_payload_for_get_request 0%nat
                           (state_with year_999_namespace)))
    by (rewrite Hrun; reflexivity).
  subst σ'.
  assert (Hk : Some (VStr out) = Some (VStr "31/12/999")).
  { rewrite <- Hout.
    exact (eq_trans
             (eq_sym (f_equal (λ o : option (gmap string pyval),
                                 o ≫= (λ p, p !! "dateFrom")) Hp))
             short_year_reformatted). }
  injection Hk as ->.
  vm_compute in Hback. discriminate.
Qed.

(** The year 0 is no year of [datetime]: its dates are refused. *)
Example year_zero_exits_2 :
  ∃ σ',
    format_payload_for_get_request 0%nat (state_with year_0_namespace)
    = (Exit 2, σ') ∧
    trace σ' = [Print (Text date_format_message)].
Proof. eexists. split; vm_compute; reflexivity. Qed.

Lemma strftime_Y_m_d_isoformat dt :
  (1000 ≤ year dt)%Z → strftime dt fmt_Y_m_d = isoformat dt.
Proof.
  intros Hy. destruct dt as [y m dd]. cbn [year] in Hy.
  unfold isoformat. cbn [strftime fmt_Y_m_d strftime_directive year month day].
  rewrite (DatetimeFacts.decimal_pad4 y Hy).
  unfold pad4, pad2. reflexivity.
Qed.



(** C7: when the departure date does not parse with ['%Y-%m-%d'],
    [format_payload_for_get_request] prints the date-format message and
    exits with code 2; it returns no payload. *)
Theorem unparsable_date_exits_2 args σ d days s :
  heap σ !! args = Some d →
  d !! "daysInDestination" = Some days →
  d !! "dateFrom" = Some (VStr s) →
  strptime s fmt_Y_m_d = None →
  ∃ σ',
    format_payload_for_get_request args σ = (Exit 2, σ') ∧
    trace σ' = (trace σ ++ [Print (Text date_format_message)])%list.
Proof.
  intros Hh Hdays Hdate Hparse.
  rewrite (format_payload_run _ _ _ _ _ Hh Hdays Hdate), Hparse.
  eexists. split; reflexivity.
Qed.

Lemma unparsable_date_exits_2_witness :
  ∃ σ',
    format_payload_for_get_request 0%nat (state_with bad_date_namespace)
    = (Exit 2, σ') ∧
    trace σ' = ([] ++ [Print (Text date_format_message)])%list.
Proof.
  apply (unparsable_date_exits_2 0%nat (state_with bad_date_namespace)
           bad_date_namespace (VInt 7) "01/06/2024").
  - reflexivity.
  - reflexivity.
  - reflexivity.
  - reflexivity.
Defined.

(** Texts that ['%Y-%m-%d'] rejects: another layout, a month or a day that
    does not exist, text after the date, the year 0. *)
Example unparsable_dates :
  Forall (λ s, strptime s fmt_Y_m_d = None)
    ["01/06/2024"; "2024-13-01"; "2023-02-29"; "2024-06-01T00:00";
     "24-06-01"; "0000-01-01"; ""].
Proof. repeat constructor. Qed.

(** Texts it accepts although they are not zero-padded: the month and the
    day may be one digit, the day may be written behind a space. *)
Example lenient_dates :
  strptime "2024-6-1" fmt_Y_m_d = Some (mkdate 2024 6 1) ∧
  strptime "2024-06- 1" fmt_Y_m_d = Some (mkdate 2024 6 1).
Proof. split; reflexivity. Qed.

(** C6, as stated, fails: the call on the Namespace of a one-way search
    returns, and the Namespace is no longer what it was. *)
Lemma input_record_changed :
  ¬ (∀ args σ payload σ',
       format_payload_for_get_request args σ = (Ret payload, σ') →
       heap σ' !! args = heap σ !! args).
Proof.
  intros H.
  specialize (H 0%nat (state_with oneway_namespace) 0%nat
                (snd (format_payload_for_get_request 0%nat
                        (state_with oneway_namespace)))).
  assert (Hrun : format_payload_for_get_request 0%nat (state_with oneway_namespace)
                 = (Ret 0%nat,
                    snd (format_payload_for_get_request 0%nat
                           (state_with oneway_namespace))))
    by (vm_compute; reflexivity).
  specialize (H Hrun).
  pose proof (f_equal (λ o : option (gmap string pyval),
                         o ≫= (λ d, d !! "daysInDestination")) H) as Hk.
  vm_compute in Hk. discriminate.
Qed.

(** The trip type the function derives from the number of days. *)
Definition trip_type (days : pyval) : string :=
  match days with VNone => "oneway" | _ => "return" end.

(** C6, amended: a call that returns has printed nothing and requested
    nothing, and has touched no object but the Namespace it was given.
    The payload it returns is the attribute dictionary of that Namespace,
    updated in place: [typeFlight] is set to ["oneway"] when the number of
    days was [None] and to ["return"] otherwise, [daysInDestination] is
    removed when it was [None] and kept otherwise, [dateFrom] is replaced
    by the reformatted text of the date it parsed to, and every other
    attribute is what it was. *)
Theorem format_payload_frame args σ payload σ' :
  format_payload_for_get_request args σ = (Ret payload, σ') →
  payload = args ∧
  trace σ' = trace σ ∧
  (∀ l, l ≠ args → heap σ' !! l = heap σ !! l) ∧
  ∃ d d' days s dt,
    heap σ !! args = Some d ∧
    heap σ' !! payload = Some d' ∧
    d !! "daysInDestination" = Some days ∧
    d !! "dateFrom" = Some (VStr s) ∧
    strptime s fmt_Y_m_d = Some dt ∧
    d' !! "typeFlight" = Some (VStr (trip_type days)) ∧
    d' !! "daysInDestination"
      = match days with VNone => None | _ => Some days end ∧
    d' !! "dateFrom" = Some (VStr (strftime dt fmt_d_m_Y)) ∧
    ∀ k, k ≠ "typeFlight" → k ≠ "daysInDestination" → k ≠ "dateFrom" →
         d' !! k = d !! k.
Proof.
  intros Hrun.
  destruct (format_payload_Ret_inv _ _ _ _ Hrun)
    as (d & days & s & dt & Hh & Hdays & Hdate & Hparse).
  rewrite (format_payload_run _ _ _ _ _ Hh Hdays Hdate), Hparse in Hrun.
  injection Hrun as <- <-. cbn [heap trace].
  split; [reflexivity|]. split; [reflexivity|]. split.
  - intros l Hl. apply lookup_insert_ne. congruence.
  - exists d. eexists. exists days, s, dt.
    split; [assumption|].
    split; [apply lookup_insert_eq|].
    split; [assumption|]. split; [assumption|]. split; [assumption|].
    rewrite lookup_insert_eq.
    rewrite !(lookup_insert_ne _ "dateFrom") by discriminate.
    split; [|split; [|split; [reflexivity|]]].
    + unfold with_trip_type, trip_type.
      destruct days;
        rewrite ?lookup_delete_ne, ?lookup_insert_eq by discriminate;
        reflexivity.
    + unfold with_trip_type.
      destruct days;
        rewrite ?lookup_delete_eq, ?lookup_insert_ne by discriminate;
        first [reflexivity | exact Hdays].
    + intros k H1 H2 H3. rewrite lookup_insert_ne by congruence.
      unfold with_trip_type.
      destruct days;
        rewrite ?lookup_delete_ne, ?lookup_insert_ne by congruence; reflexivity.
Qed.

Lemma format_payload_frame_witness :
  let σ' := snd (format_payload_for_get_request 0%nat
                   (state_with oneway_namespace)) in
  0%nat = 0%nat ∧
  trace σ' = trace (state_with oneway_namespace) ∧
  (∀ l, l ≠ 0%nat → heap σ' !! l = heap (state_with oneway_namespace) !! l) ∧
  ∃ d d' days s dt,
    heap (state_with oneway_namespace) !! 0%nat = Some d ∧
    heap σ' !! 0%nat = Some d' ∧
    d !! "daysInDestination" = Some days ∧
    d !! "dateFrom" = Some (VStr s) ∧
    strptime s fmt_Y_m_d = Some dt ∧
    d' !! "typeFlight" = Some (VStr (trip_type days)) ∧
    d' !! "daysInDestination"
      = match days with VNone => None | _ => Some days end ∧
    d' !! "dateFrom" = Some (VStr (strftime dt fmt_d_m_Y)) ∧
    ∀ k, k ≠ "typeFlight" → k ≠ "daysInDestination" → k ≠ "dateFrom" →
         d' !! k = d !! k.
Proof.
  apply (format_payload_frame 0%nat (state_with oneway_namespace) 0%nat).
  vm_compute. reflexivity.
Defined.

End PayloadFacts.

(** ** Mutually exclusive options *)

Module ArgparseFacts.
Import Argparse.
Local Open Scope string_scope.

(** How a command line is turned away. *)
Definition is_help (p : ArgumentParser) (tok : string) : Prop :=
  ∃ a, _parse_optional p tok = TokOpt a ∧ kind a = HelpAction.

Definition rejected (p : ArgumentParser) (argv : list string)
    (o : parse_outcome) : Prop :=
  (∃ msg, o = ArgError msg)
  ∨ (o = HelpRequested ∧ ∃ tok, tok ∈ argv ∧ is_help p tok).

Lemma rejected_more p pre argv o :
  rejected p argv o → rejected p (pre ++ argv) o.
Proof.
  intros [H | (H & tok & Hin & Hh)]; [left; exact H|].
  right. split; [exact H|]. exists tok. rewrite elem_of_app. auto.
Qed.

Section Conflict.

(** Two options [x] and [y] of a parser, each in a group with the other. *)
Variable p : ArgumentParser.
Variables x y : string.
Variables ax ay : Action.
Hypothesis x_option : _parse_optional p x = TokOpt ax.
Hypothesis y_option : _parse_optional p y = TokOpt ay.
Hypothesis x_name : action_name ax = x.
Hypothesis y_name : action_name ay = y.
Hypothesis x_excludes_y : y ∈ action_conflicts p x.
Hypothesis y_excludes_x : x ∈ action_conflicts p y.
Hypothesis distinct : x ≠ y.

(** During the scan, each of the two has been seen or is still to come,
    and they have not both been seen. *)
Definition pending (st : scan) (argv : list string) : Prop :=
  (x ∈ seen_actions st ∨ x ∈ argv) ∧
  (y ∈ seen_actions st ∨ y ∈ argv) ∧
  ¬ (x ∈ seen_actions st ∧ y ∈ seen_actions st).

Lemma take_action_inl a value st st' :
  take_action p a value st = inl st' →
  seen_actions st' = action_name a :: seen_actions st ∧
  ∀ c, c ∈ action_conflicts p (action_name a) → c ∉ seen_actions st.
Proof.
  unfold take_action. destruct value as [v|]; [|discriminate].
  destruct (find _ _) as [c|] eqn:Hfind; [discriminate|].
  intros [= <-]. split; [reflexivity|].
  intros c Hc Hseen.
  apply list_elem_of_In in Hc.
  pose proof (find_none _ _ Hfind c Hc) as Hf. cbn beta in Hf.
  apply bool_decide_eq_false in Hf. contradiction.
Qed.

(** Taking the action of [tok], and dropping the value it consumed, keeps
    the two options pending. *)
Lemma take_action_pending tok a value st st' consumed rest :
  _parse_optional p tok = TokOpt a →
  take_action p a value st = inl st' →
  x ∉ consumed → y ∉ consumed →
  pending st (tok :: consumed ++ rest) →
  pending st' rest.
Proof.
  intros Htok Htake Hxc Hyc (Hpx & Hpy & Hboth).
  destruct (take_action_inl _ _ _ _ Htake) as (Hseen & Hfree).
  unfold pending. rewrite Hseen.
  assert (Hax : tok = x → action_name a = x).
  { intros ->. rewrite x_option in Htok. injection Htok as <-. exact x_name. }
  assert (Hay : tok = y → action_name a = y).
  { intros ->. rewrite y_option in Htok. injection Htok as <-. exact y_name. }
  repeat split.
  - destruct Hpx as [Hs | Hin]; [left; apply elem_of_cons; auto|].
    apply elem_of_cons in Hin as [-> | Hin].
    + left. apply elem_of_cons. left. symmetry. auto.
    + apply elem_of_app in Hin as [Hin | Hin]; [contradiction | auto].
  - destruct Hpy as [Hs | Hin]; [left; apply elem_of_cons; auto|].
    apply elem_of_cons in Hin as [-> | Hin].
    + left. apply elem_of_cons. left. symmetry. auto.
    + apply elem_of_app in Hin as [Hin | Hin]; [contradiction | auto].
  - intros (Hx' & Hy').
    apply elem_of_cons in Hx' as [Hx' | Hx'];
      apply elem_of_cons in Hy' as [Hy' | Hy'].
    + congruence.
    + apply (Hfree y); [rewrite <- Hx'; exact x_excludes_y | exact Hy'].
    + apply (Hfree x); [rewrite <- Hy'; exact y_excludes_x | exact Hx'].
    + auto.
Qed.

Lemma not_option_token tok :
  _parse_optional p tok = TokArg ∨ _parse_optional p tok = TokUnknown →
  tok ≠ x ∧ tok ≠ y.
Proof.
  intros H. split; intros ->.
  - rewrite x_option in H. destruct H; discriminate.
  - rewrite y_option in H. destruct H; discriminate.
Qed.

(** A token left aside keeps the two options pending. *)
Lemma skip_pending tok st rest :
  _parse_optional p tok = TokArg ∨ _parse_optional p tok = TokUnknown →
  pending st (tok :: rest) →
  pending (mkscan (namespace st) (seen_actions st) (extras st ++ [tok])) rest.
Proof.
  intros Hc (Hpx & Hpy & Hboth).
  destruct (not_option_token tok Hc) as (Hx & Hy).
  unfold pending. cbn [seen_actions].
  repeat split; [| |exact Hboth].
  - destruct Hpx as [?|Hin]; [auto|].
    apply elem_of_cons in Hin as [?|?]; [congruence | auto].
  - destruct Hpy as [?|Hin]; [auto|].
    apply elem_of_cons in Hin as [?|?]; [congruence | auto].
Qed.

(** The scan of a command line on which both options are pending never
    produces a Namespace. *)
Lemma consume_rejects n :
  ∀ argv st, (List.length argv ≤ n)%nat → pending st argv →
             rejected p argv (consume p argv st).
Proof.
  induction n as [|n IH]; intros argv st Hlen Hp.
  - destruct argv; [|cbn in Hlen; lia].
    destruct Hp as ([Hx|Hx] & [Hy|Hy] & Hboth);
      try (apply elem_of_nil in Hx; contradiction);
      try (apply elem_of_nil in Hy; contradiction).
    exfalso. auto.
  - destruct argv as [|tok rest].
    { destruct Hp as ([Hx|Hx] & [Hy|Hy] & Hboth);
        try (apply elem_of_nil in Hx; contradiction);
        try (apply elem_of_nil in Hy; contradiction).
      exfalso. auto. }
    cbn [List.length] in Hlen. cbn [consume].
    destruct (_parse_optional p tok) as [|a|] eqn:Hc.
    + apply (rejected_more p [tok]). apply IH; [lia|].
      apply skip_pending; auto.
    + destruct (kind a) eqn:Hk.
      * destruct rest as [|v rest']; [left; eauto|].
        destruct (is_arg p v) eqn:Hv; [|left; eauto].
        destruct (take_action p a (_get_value type v) st) as [st'|msg] eqn:Ht;
          [|left; eauto].
        apply (rejected_more p [tok; v]). cbn [List.length] in Hlen.
        apply IH; [lia|].
        assert (Hvc : _parse_optional p v = TokArg)
          by (unfold is_arg in Hv; destruct (_parse_optional p v);
              [reflexivity | discriminate | discriminate]).
        destruct (not_option_token v (or_introl Hvc)) as (Hvx & Hvy).
        apply (take_action_pending tok a _ st st' [v] rest' Hc Ht).
        -- intros Hin. apply elem_of_cons in Hin as [?|Hin];
             [congruence | apply elem_of_nil in Hin; contradiction].
        -- intros Hin. apply elem_of_cons in Hin as [?|Hin];
             [congruence | apply elem_of_nil in Hin; contradiction].
        -- exact Hp.
      * destruct (take_action p a (Some const) st) as [st'|msg] eqn:Ht;
          [|left; eauto].
        apply (rejected_more p [tok]). apply IH; [lia|].
        apply (take_action_pending tok a _ st st' [] rest Hc Ht);
          [apply not_elem_of_nil | apply not_elem_of_nil | exact Hp].
      * right. split; [reflexivity|].
        exists tok. split; [apply elem_of_cons; auto|].
        exists a. auto.
    + apply (rejected_more p [tok]). apply IH; [lia|].
      apply skip_pending; auto.
Qed.

Lemma parse_args_rejects argv :
  x ∈ argv → y ∈ argv → rejected p argv (parse_args p argv).
Proof.
  intros Hx Hy. unfold parse_args.
  apply (consume_rejects (List.length argv)); [lia|].
  repeat split; auto.
  cbn [seen_actions]. intros (H & _). apply elem_of_nil in H. contradiction.
Qed.

End Conflict.

Import BookFlight.

(** The two groups of the program's parser. *)
Lemma one_way_and_return_rejected argv :
  "--one-way" ∈ argv → "--return" ∈ argv →
  rejected create_arg_parser argv (parse_args create_arg_parser argv).
Proof.
  eapply parse_args_rejects.
  - reflexivity.
  - reflexivity.
  - reflexivity.
  - reflexivity.
  - vm_compute. apply elem_of_cons. left. reflexivity.
  - vm_compute. apply elem_of_cons. left. reflexivity.
  - discriminate.
Qed.

Lemma cheapest_and_shortest_rejected argv :
  "--cheapest" ∈ argv → "--shortest" ∈ argv →
  rejected create_arg_parser argv (parse_args create_arg_parser argv).
Proof.
  eapply parse_args_rejects.
  - reflexivity.
  - reflexivity.
  - reflexivity.
  - reflexivity.
  - vm_compute. apply elem_of_cons. left. reflexivity.
  - vm_compute. apply elem_of_cons. left. reflexivity.
  - discriminate.
Qed.

(** The help action of the program's parser has two option strings. *)
Lemma help_tokens tok :
  is_help create_arg_parser tok → tok = "-h" ∨ tok = "--help".
Proof.
  intros (a & Hc & Hk). unfold _parse_optional in Hc.
  destruct tok as [|c t]; [discriminate|].
  destruct (Ascii.eqb c "-"); [|discriminate].
  destruct (find_action create_arg_parser (String c t)) as [b|] eqn:Hf;
    [|discriminate].
  injection Hc as ->.
  apply find_some in Hf as (Hin & Hdec).
  apply bool_decide_eq_true in Hdec.
  cbn [actions create_arg_parser In] in Hin.
  repeat (destruct Hin as [<- | Hin]; [try discriminate Hk|]);
    [|contradiction].
  cbn [option_strings] in Hdec.
  apply elem_of_cons in Hdec as [? | Hdec]; [auto|].
  apply elem_of_cons in Hdec as [? | Hdec]; [auto|].
  apply elem_of_nil in Hdec. contradiction.
Qed.

End ArgparseFacts.

(** ** The two requests and the driver *)

Module ClientFacts.
Import Datetime Argparse BookFlight Run.
Local Open Scope string_scope.

(** The state after more events. *)
Definition logged (σ : state) (events : list event) : state :=
  mkstate (heap σ) (trace σ ++ events).

Section Network.

Variable network :
  http_method → string → option (gmap string pyval) → option pyval → net_result.

Lemma request_responded request url params json σ r :
  network request url params json = Responded r →
  request_server_response network request url params json σ
  = (Ret r, logged σ [Request request url params json]).
Proof.
  intros Hn. unfold request_server_response, bind, emit. rewrite Hn.
  reflexivity.
Qed.

Lemma request_no_connection request url params json σ err :
  network request url params json = ConnectionError err →
  request_server_response network request url params json σ
  = (Exit 1, logged σ [Request request url params json;
                       Print (Text no_response_message);
                       Print (ErrorText err)]).
Proof.
  intros Hn. unfold request_server_response, bind, emit, print, emit, sys_exit.
  rewrite Hn. unfold logged. cbn [heap trace].
  rewrite <- !app_assoc. reflexivity.
Qed.

(** [find_flight] once the search has been answered with JSON. *)
Lemma find_flight_answered payload σ params r v :
  heap σ !! payload = Some params →
  network GET search_url (Some params) None = Responded r →
  json_body r = Some v →
  find_flight network payload σ
  = (results <- subscript_str v "_results" ;;
     (if py_eq_zero results
      then print (Text no_flights_message) ;; sys_exit 1
      else ret tt) ;;
     data <- subscript_str v "data" ;;
     first <- subscript_0 data ;;
     subscript_str first "booking_token")
      (logged σ [Request GET search_url (Some params) None]).
Proof.
  intros Hh Hn Hj. unfold find_flight.
  rewrite (bind_Ret _ _ _ _ _ (deref_run _ _ _ Hh)).
  rewrite (bind_Ret _ _ _ _ _ (request_responded _ _ _ _ _ _ Hn)).
  unfold parse_json at 1. rewrite Hj. reflexivity.
Qed.

(** [book_flight] once the booking has been answered with JSON. *)
Lemma book_flight_answered token pass_info currency_name σ r v :
  network POST booking_url None
    (Some (booking_payload token pass_info currency_name)) = Responded r →
  json_body r = Some v →
  book_flight network token pass_info currency_name σ
  = (status <- subscript_str v "status" ;;
     if py_eq_str status "confirmed"
     then subscript_str v "pnr"
     else print (TextStr booking_failed_message v) ;; sys_exit 1)
      (logged σ [Request POST booking_url None
                   (Some (booking_payload token pass_info currency_name))]).
Proof.
  intros Hn Hj. unfold book_flight.
  rewrite (bind_Ret _ _ _ _ _ (request_responded _ _ _ _ _ _ Hn)).
  rewrite Hj. reflexivity.
Qed.

Lemma deref_Ret_inv l σ d σ' :
  deref l σ = (Ret d, σ') → σ' = σ ∧ heap σ !! l = Some d.
Proof.
  unfold deref. destruct (heap σ !! l); intros [= <- <-]; auto.
Qed.

Lemma request_Ret_inv request url params json σ r σ' :
  request_server_response network request url params json σ = (Ret r, σ') →
  σ' = logged σ [Request request url params json].
Proof.
  unfold request_server_response, bind, emit, print, emit, sys_exit, raise, ret.
  destruct (network request url params json); intros [= <- <-]; reflexivity.
Qed.

Lemma parse_json_Ret_inv r σ v σ' :
  parse_json r σ = (Ret v, σ') → σ' = σ.
Proof.
  unfold parse_json, bind, print, emit, sys_exit, ret.
  destruct (json_body r); intros [= <- <-]; reflexivity.
Qed.

Lemma subscript_str_Ret_inv v key σ x σ' :
  subscript_str v key σ = (Ret x, σ') → σ' = σ.
Proof.
  unfold subscript_str, ret, raise.
  destruct v as [| | | | | |d]; try discriminate.
  destruct (d !! key); intros [= <- <-]; reflexivity.
Qed.

Lemma subscript_0_Ret_inv v σ x σ' :
  subscript_0 v σ = (Ret x, σ') → σ' = σ.
Proof.
  unfold subscript_0, ret, raise.
  destruct v as [| | | |[|c t]|[|y l]|d]; intros [= <- <-]; reflexivity.
Qed.

(** A search that returns a token has sent its one request and nothing
    else. *)
Lemma find_flight_Ret_inv payload σ token σ' :
  find_flight network payload σ = (Ret token, σ') →
  ∃ params,
    heap σ !! payload = Some params ∧
    σ' = logged σ [Request GET search_url (Some params) None].
Proof.
  unfold find_flight. intros H.
  apply bind_Ret_inv in H as (params & σ1 & H1 & H).
  apply deref_Ret_inv in H1 as (-> & Hh).
  apply bind_Ret_inv in H as (r & σ2 & H2 & H).
  apply request_Ret_inv in H2 as ->.
  apply bind_Ret_inv in H as (v & σ3 & H3 & H).
  apply parse_json_Ret_inv in H3 as ->.
  apply bind_Ret_inv in H as (results & σ4 & H4 & H).
  apply subscript_str_Ret_inv in H4 as ->.
  apply bind_Ret_inv in H as (u & σ5 & H5 & H).
  assert (σ5 = logged σ [Request GET search_url (Some params) None]) as ->.
  { destruct (py_eq_zero results); [discriminate|].
    injection H5 as _ <-. reflexivity. }
  apply bind_Ret_inv in H as (data & σ6 & H6 & H).
  apply subscript_str_Ret_inv in H6 as ->.
  apply bind_Ret_inv in H as (first & σ7 & H7 & H).
  apply subscript_0_Ret_inv in H7 as ->.
  apply subscript_str_Ret_inv in H as ->.
  eauto.
Qed.

(** The driver up to the search, and up to the booking. *)
Definition reaches_search (argv : list string) (payload : loc) (σ : state)
  : Prop :=
  ∃ namespace args σ1,
    parse_args create_arg_parser argv = Parsed namespace ∧
    alloc namespace initial_state = (Ret args, σ1) ∧
    format_payload_for_get_request args σ1 = (Ret payload, σ).

Definition reaches_booking (argv : list string) (params : gmap string pyval)
    (token : pyval) (σ : state) : Prop :=
  ∃ payload σ2,
    reaches_search argv payload σ2 ∧
    heap σ2 !! payload = Some params ∧
    find_flight network payload σ2 = (Ret token, σ).

Lemma main_from_search argv payload σ :
  reaches_search argv payload σ →
  trace σ = [] ∧
  main network argv initial_state
  = (booking_token <- find_flight network payload ;;
     pnr_number <- book_flight network booking_token passenger_info currency ;;
     print (StrOf pnr_number)) σ.
Proof.
  intros (namespace & args & σ1 & Hparse & Halloc & Hformat).
  split.
  - destruct (PayloadFacts.format_payload_Ret_same _ _ _ _ Hformat)
      as (_ & -> & _).
    unfold alloc in Halloc. injection Halloc as _ <-. reflexivity.
  - unfold main. rewrite Hparse.
    rewrite (bind_Ret _ _ _ _ _ Halloc).
    rewrite (bind_Ret _ _ _ _ _ Hformat). reflexivity.
Qed.

Lemma main_from_booking argv params token σ :
  reaches_booking argv params token σ →
  trace σ = [Request GET search_url (Some params) None] ∧
  main network argv initial_state
  = (pnr_number <- book_flight network token passenger_info currency ;;
     print (StrOf pnr_number)) σ.
Proof.
  intros (payload & σ2 & Hsearch & Hparams & Hfind).
  destruct (main_from_search _ _ _ Hsearch) as (Htrace & ->).
  rewrite (bind_Ret _ _ _ _ _ Hfind).
  destruct (find_flight_Ret_inv _ _ _ _ Hfind) as (params' & Hp & ->).
  rewrite Hparams in Hp. injection Hp as <-.
  unfold logged. cbn [trace]. rewrite Htrace. auto.
Qed.

(** C3: when the search is answered with JSON whose ["_results"] equals 0,
    the program prints the no-flights message and exits with code 1; the
    trace ends there, so no booking request was sent. *)
Theorem no_results_exits_before_booking argv payload σ params r body results :
  reaches_search argv payload σ →
  heap σ !! payload = Some params →
  network GET search_url (Some params) None = Responded r →
  json_body r = Some (VDict body) →
  body !! "_results" = Some results →
  py_eq_zero results = true →
  ∃ σ',
    main network argv initial_state = (Exit 1, σ') ∧
    trace σ' = [Request GET search_url (Some params) None;
                Print (Text no_flights_message)] ∧
    ∀ url p j, Request POST url p j ∉ trace σ'.
Proof.
  intros Hsearch Hh Hn Hj Hres Hzero.
  destruct (main_from_search _ _ _ Hsearch) as (Htrace & ->).
  erewrite bind_Exit.
  2: { rewrite (find_flight_answered _ _ _ _ _ Hh Hn Hj).
       unfold subscript_str at 1. rewrite Hres.
       unfold bind at 1, ret at 1. rewrite Hzero. reflexivity. }
  eexists. split; [reflexivity|].
  unfold logged. cbn [trace]. rewrite Htrace. cbn [app].
  split; [reflexivity|].
  intros url p j Hin.
  repeat (apply elem_of_cons in Hin as [Hin|Hin]; [discriminate|]).
  inversion Hin.
Qed.

(** C5: when the search is answered with JSON whose ["_results"] is not 0,
    [find_flight] returns the ["booking_token"] of the first element of
    ["data"]; the process goes on. *)
Theorem find_flight_returns_first_token
    payload σ params r body results first others token :
  heap σ !! payload = Some params →
  network GET search_url (Some params) None = Responded r →
  json_body r = Some (VDict body) →
  body !! "_results" = Some results →
  py_eq_zero results = false →
  body !! "data" = Some (VList (VDict first :: others)) →
  first !! "booking_token" = Some token →
  find_flight network payload σ
  = (Ret token, logged σ [Request GET search_url (Some params) None]).
Proof.
  intros Hh Hn Hj Hres Hnz Hdata Htok.
  rewrite (find_flight_answered _ _ _ _ _ Hh Hn Hj).
  unfold subscript_str at 1. rewrite Hres.
  unfold bind at 1, ret at 1. rewrite Hnz.
  unfold bind at 1, ret at 1.
  unfold subscript_str at 1. rewrite Hdata.
  unfold bind at 1, ret at 1.
  unfold bind at 1, subscript_0, ret at 1.
  unfold subscript_str. rewrite Htok. reflexivity.
Qed.

(** C4: when the booking is answered with JSON, its ["status"] decides.
    If it is ["confirmed"], [book_flight] returns the ["pnr"] field.  If
    it is anything else, [book_flight] prints the confirmation and exits
    with code 1, and so does the program, whose trace then holds no print
    of a PNR. *)
Theorem booking_status_decides token pass_info currency_name σ r body status :
  network POST booking_url None
    (Some (booking_payload token pass_info currency_name)) = Responded r →
  json_body r = Some (VDict body) →
  body !! "status" = Some status →
  let sent := Request POST booking_url None
                (Some (booking_payload token pass_info currency_name)) in
  let refusal := Print (TextStr booking_failed_message (VDict body)) in
  (py_eq_str status "confirmed" = true →
   ∀ pnr, body !! "pnr" = Some pnr →
     book_flight network token pass_info currency_name σ
     = (Ret pnr, logged σ [sent]))
  ∧
  (py_eq_str status "confirmed" = false →
   book_flight network token pass_info currency_name σ
   = (Exit 1, logged σ [sent; refusal])
   ∧
   ∀ argv params,
     pass_info = passenger_info → currency_name = currency →
     reaches_booking argv params token σ →
     ∃ σ',
       main network argv initial_state = (Exit 1, σ') ∧
       trace σ' = [Request GET search_url (Some params) None; sent; refusal] ∧
       ∀ v, Print (StrOf v) ∉ trace σ').
Proof.
  intros Hn Hj Hstatus sent refusal.
  assert (Hrej : py_eq_str status "confirmed" = false →
                 book_flight network token pass_info currency_name σ
                 = (Exit 1, logged σ [sent; refusal])).
  { intros Hno. rewrite (book_flight_answered _ _ _ _ _ _ Hn Hj).
    unfold subscript_str at 1. rewrite Hstatus.
    unfold bind at 1, ret at 1. rewrite Hno.
    unfold bind, print, emit, sys_exit, logged. cbn [heap trace].
    rewrite <- app_assoc. reflexivity. }
  split.
  - intros Hyes pnr Hpnr. rewrite (book_flight_answered _ _ _ _ _ _ Hn Hj).
    unfold subscript_str at 1. rewrite Hstatus.
    unfold bind at 1, ret at 1. rewrite Hyes.
    unfold subscript_str. rewrite Hpnr. reflexivity.
  - intros Hno. split; [auto|].
    intros argv params -> -> Hbook.
    destruct (main_from_booking _ _ _ _ Hbook) as (Htrace & ->).
    rewrite (bind_Exit _ _ _ _ _ (Hrej Hno)).
    eexists. split; [reflexivity|].
    unfold logged. cbn [trace]. rewrite Htrace. cbn [app].
    split; [reflexivity|].
    intros v Hin.
    repeat (apply elem_of_cons in Hin as [Hin|Hin]; [discriminate|]).
    inversion Hin.
Qed.

(** Which of the two requests got no response, and what the program
    prints then. *)
Inductive no_connection (argv : list string) : state → list event → Prop :=
  | search_unreachable payload σ params err :
      reaches_search argv payload σ →
      heap σ !! payload = Some params →
      network GET search_url (Some params) None = ConnectionError err →
      no_connection argv σ
        [Request GET search_url (Some params) None;
         Print (Text no_response_message); Print (ErrorText err)]
  | booking_unreachable params token σ err :
      reaches_booking argv params token σ →
      network POST booking_url None
        (Some (booking_payload token passenger_info currency))
      = ConnectionError err →
      no_connection argv σ
        [Request POST booking_url None
           (Some (booking_payload token passenger_info currency));
         Print (Text no_response_message); Print (ErrorText err)].

(** C8: when the search request or the booking request raises a
    connection error, the program prints the no-response message and the
    error, and exits with code 1. *)
Theorem connection_error_exits_1 argv σ events :
  no_connection argv σ events →
  main network argv initial_state = (Exit 1, logged σ events) ∧
  Print (Text no_response_message) ∈ events.
Proof.
  intros [payload σ0 params err Hsearch Hh Hn | params token σ0 err Hbook Hn].
  - destruct (main_from_search _ _ _ Hsearch) as (_ & ->).
    split; [|rewrite !elem_of_cons; auto].
    apply bind_Exit. unfold find_flight.
    rewrite (bind_Ret _ _ _ _ _ (deref_run _ _ _ Hh)).
    apply bind_Exit, request_no_connection, Hn.
  - destruct (main_from_booking _ _ _ _ Hbook) as (_ & ->).
    split; [|rewrite !elem_of_cons; auto].
    apply bind_Exit. unfold book_flight.
    apply bind_Exit, request_no_connection, Hn.
Qed.

(** What a search answer can lack, and the exception the lookup raises. *)
Inductive malformed_search (body : gmap string pyval) : exn → Prop :=
  | lacks_results :
      body !! "_results" = None →
      malformed_search body (KeyError (VStr "_results"))
  | lacks_data results :
      body !! "_results" = Some results → py_eq_zero results = false →
      body !! "data" = None →
      malformed_search body (KeyError (VStr "data"))
  | empty_data results :
      body !! "_results" = Some results → py_eq_zero results = false →
      body !! "data" = Some (VList []) →
      malformed_search body IndexError
  | lacks_booking_token results first others :
      body !! "_results" = Some results → py_eq_zero results = false →
      body !! "data" = Some (VList (VDict first :: others)) →
      first !! "booking_token" = None →
      malformed_search body (KeyError (VStr "booking_token")).

(** C10: the two functions take the keys of the server's JSON for
    granted.  A search answer without ["_results"], or with a nonzero
    ["_results"] and no ["data"], an empty ["data"] list or a first element
    without ["booking_token"], makes [find_flight] raise a [KeyError] or an
    [IndexError] that nothing catches; a booking answer without ["status"]
    does the same to [book_flight].  Nothing is printed and the process
    does not go through [sys.exit]. *)
Theorem missing_keys_raise :
  (∀ payload σ params r body e,
     heap σ !! payload = Some params →
     network GET search_url (Some params) None = Responded r →
     json_body r = Some (VDict body) →
     malformed_search body e →
     find_flight network payload σ
     = (Raise e, logged σ [Request GET search_url (Some params) None]))
  ∧
  (∀ token pass_info currency_name σ r body,
     network POST booking_url None
       (Some (booking_payload token pass_info currency_name)) = Responded r →
     json_body r = Some (VDict body) →
     body !! "status" = None →
     book_flight network token pass_info currency_name σ
     = (Raise (KeyError (VStr "status")),
        logged σ [Request POST booking_url None
                    (Some (booking_payload token pass_info currency_name))])).
Proof.
  split.
  - intros payload σ params r body e Hh Hn Hj Hbad.
    rewrite (find_flight_answered _ _ _ _ _ Hh Hn Hj).
    destruct Hbad as [Hres | results Hres Hnz Hdata | results Hres Hnz Hdata
                     | results first others Hres Hnz Hdata Htok];
      unfold subscript_str at 1; rewrite Hres; [reflexivity | | | ];
      unfold bind at 1, ret at 1; rewrite Hnz;
      unfold bind at 1, ret at 1;
      unfold subscript_str at 1; rewrite Hdata; [reflexivity | reflexivity |].
    unfold bind at 1, ret at 1.
    unfold bind at 1, subscript_0, ret at 1.
    unfold subscript_str. rewrite Htok. reflexivity.
  - intros token pass_info currency_name σ r body Hn Hj Hstatus.
    rewrite (book_flight_answered _ _ _ _ _ _ Hn Hj).
    unfold subscript_str at 1. rewrite Hstatus. reflexivity.
Qed.


End Network.
(** *** The claims on sample runs *)

(** A network that answers every search with [search] and every booking
    with [booking]. *)
Definition scripted (search booking : net_result)
  : http_method → string → option (gmap string pyval) → option pyval → net_result :=
  λ method _ _ _, match method with GET => search | POST => booking end.

Definition json_response (v : pyval) : net_result :=
  Responded (mkResponse 200 (Some v)).

Definition found_body : gmap string pyval :=
  <["_results" := VInt 2]>
    (<["data" := VList [VDict (<["booking_token" := VStr "TOK123"]> ∅);
                        VDict (<["booking_token" := VStr "TOK456"]> ∅)]]> ∅).

Definition not_found_body : gmap string pyval :=
  <["_results" := VInt 0]> (<["data" := VList []]> ∅).

Definition confirmed_body : gmap string pyval :=
  <["status" := VStr "confirmed"]> (<["pnr" := VStr "ABC987"]> ∅).

Definition refused_body : gmap string pyval :=
  <["status" := VStr "failed"]> ∅.

Definition sample_argv : list string :=
  ["--date"; "2024-06-01"; "--from"; "NYC"; "--to"; "LON"; "--return"; "10"].

Definition sample_namespace : gmap string pyval :=
  <["dateFrom" := VStr "2024-06-01"]> (<["flyFrom" := VStr "NYC"]>
  (<["to" := VStr "LON"]> (<["typeFlight" := VNone]>
  (<["daysInDestination" := VInt 10]> (<["sort" := VStr "price"]> ∅))))).

Definition sample_params : gmap string pyval :=
  <["dateFrom" := VStr "01/06/2024"]> (<["flyFrom" := VStr "NYC"]>
  (<["to" := VStr "LON"]> (<["typeFlight" := VStr "return"]>
  (<["daysInDestination" := VInt 10]> (<["sort" := VStr "price"]> ∅))))).

(** The state in which the sample run sends its search. *)
Definition sample_search_state : state := mkstate (<[0%nat := sample_params]> ∅) [].

Lemma sample_reaches_search :
  reaches_search sample_argv 0%nat sample_search_state.
Proof.
  exists sample_namespace, 0%nat,
    (mkstate (<[0%nat := sample_namespace]> ∅) []).
  repeat split; vm_compute; reflexivity.
Qed.

(** The parser on the sample command line, and on three it turns away. *)
Example parse_sample_argv :
  parse_args create_arg_parser sample_argv = Parsed sample_namespace.
Proof. vm_compute. reflexivity. Qed.

Example parse_rejections :
  parse_args create_arg_parser ["--from"; "NYC"; "--to"; "LON"]
  = ArgError "the following arguments are required"
  ∧ parse_args create_arg_parser (sample_argv ++ ["--one-way"])
    = ArgError "not allowed with argument --return"
  ∧ parse_args create_arg_parser (sample_argv ++ ["--shortest"; "--cheapest"])
    = ArgError "not allowed with argument --shortest"
  ∧ parse_args create_arg_parser ("--help" :: sample_argv) = HelpRequested.
Proof. repeat split; vm_compute; reflexivity. Qed.

(** The whole program on the sample command line: the search finds two
    flights, the booking of the first is confirmed, the PNR is printed. *)
Example sample_run_prints_pnr :
  main (scripted (json_response (VDict found_body))
                 (json_response (VDict confirmed_body)))
       sample_argv initial_state
  = (Ret tt,
     mkstate (<[0%nat := sample_params]> ∅)
       [Request GET search_url (Some sample_params) None;
        Request POST booking_url None
          (Some (booking_payload (VStr "TOK123") passenger_info currency));
        Print (StrOf (VStr "ABC987"))]).
Proof. vm_compute. reflexivity. Qed.

Definition sample_search : event :=
  Request GET search_url (Some sample_params) None.

(** The state in which the sample run sends its booking. *)
Definition sample_booking_state : state :=
  logged sample_search_state [sample_search].

Definition sample_booking : event :=
  Request POST booking_url None
    (Some (booking_payload (VStr "TOK123") passenger_info currency)).

Lemma sample_reaches_booking booking :
  reaches_booking (scripted (json_response (VDict found_body)) booking)
    sample_argv sample_params (VStr "TOK123") sample_booking_state.
Proof.
  exists 0%nat, sample_search_state.
  split; [apply sample_reaches_search|].
  split; vm_compute; reflexivity.
Qed.

Lemma no_results_exits_before_booking_witness :
  ∃ σ',
    main (scripted (json_response (VDict not_found_body))
                   (json_response (VDict confirmed_body)))
         sample_argv initial_state = (Exit 1, σ') ∧
    trace σ' = [sample_search; Print (Text no_flights_message)] ∧
    ∀ url p j, Request POST url p j ∉ trace σ'.
Proof.
  apply (no_results_exits_before_booking
           (scripted (json_response (VDict not_found_body))
                     (json_response (VDict confirmed_body)))
           sample_argv 0%nat sample_search_state sample_params
           (mkResponse 200 (Some (VDict not_found_body)))
           not_found_body (VInt 0)).
  - apply sample_reaches_search.
  - reflexivity.
  - reflexivity.
  - reflexivity.
  - reflexivity.
  - reflexivity.
Defined.

Lemma find_flight_returns_first_token_witness :
  find_flight (scripted (json_response (VDict found_body))
                        (json_response (VDict confirmed_body)))
              0%nat sample_search_state
  = (Ret (VStr "TOK123"), sample_booking_state).
Proof.
  apply (find_flight_returns_first_token
           (scripted (json_response (VDict found_body))
                     (json_response (VDict confirmed_body)))
           0%nat sample_search_state sample_params
           (mkResponse 200 (Some (VDict found_body))) found_body (VInt 2)
           (<["booking_token" := VStr "TOK123"]> ∅)
           [VDict (<["booking_token" := VStr "TOK456"]> ∅)]
           (VStr "TOK123")).
  - reflexivity.
  - reflexivity.
  - reflexivity.
  - reflexivity.
  - reflexivity.
  - reflexivity.
  - reflexivity.
Defined.

Lemma booking_status_decides_witness :
  (book_flight (scripted (json_response (VDict found_body))
                         (json_response (VDict confirmed_body)))
               (VStr "TOK123") passenger_info currency sample_booking_state
   = (Ret (VStr "ABC987"), logged sample_booking_state [sample_booking]))
  ∧
  (∃ σ',
     main (scripted (json_response (VDict found_body))
                    (json_response (VDict refused_body)))
          sample_argv initial_state = (Exit 1, σ') ∧
     trace σ' = [sample_search; sample_booking;
                 Print (TextStr booking_failed_message (VDict refused_body))] ∧
     ∀ v, Print (StrOf v) ∉ trace σ').
Proof.
  split.
  - apply (booking_status_decides
             (scripted (json_response (VDict found_body))
                       (json_response (VDict confirmed_body)))
             (VStr "TOK123") passenger_info currency sample_booking_state
             (mkResponse 200 (Some (VDict confirmed_body)))
             confirmed_body (VStr "confirmed")); reflexivity.
  - apply (booking_status_decides
             (scripted (json_response (VDict found_body))
                       (json_response (VDict refused_body)))
             (VStr "TOK123") passenger_info currency sample_booking_state
             (mkResponse 200 (Some (VDict refused_body)))
             refused_body (VStr "failed"));
      try reflexivity.
    apply sample_reaches_booking.
Defined.

Lemma connection_error_exits_1_witness :
  (main (scripted (ConnectionError "unreachable") (ConnectionError "unreachable"))
        sample_argv initial_state
   = (Exit 1, logged sample_search_state
                [sample_search; Print (Text no_response_message);
                 Print (ErrorText "unreachable")]))
  ∧
  (main (scripted (json_response (VDict found_body)) (ConnectionError "reset"))
        sample_argv initial_state
   = (Exit 1, logged sample_booking_state
                [sample_booking; Print (Text no_response_message);
                 Print (ErrorText "reset")])).
Proof.
  split.
  - apply (connection_error_exits_1
             (scripted (ConnectionError "unreachable") (ConnectionError "unreachable"))
             sample_argv sample_search_state).
    apply (search_unreachable _ _ 0%nat sample_search_state sample_params).
    + apply sample_reaches_search.
    + reflexivity.
    + reflexivity.
  - apply (connection_error_exits_1
             (scripted (json_response (VDict found_body)) (ConnectionError "reset"))
             sample_argv sample_booking_state).
    apply (booking_unreachable _ _ sample_params (VStr "TOK123")).
    + apply sample_reaches_booking.
    + reflexivity.
Defined.

Lemma missing_keys_raise_witness :
  (find_flight (scripted (json_response (VDict (<["data" := VList []]> ∅)))
                         (json_response (VDict ∅)))
               0%nat sample_search_state
   = (Raise (KeyError (VStr "_results")), sample_booking_state))
  ∧
  (find_flight (scripted (json_response (VDict (<["_results" := VInt 3]> not_found_body)))
                         (json_response (VDict ∅)))
               0%nat sample_search_state
   = (Raise IndexError, sample_booking_state))
  ∧
  (book_flight (scripted (json_response (VDict found_body))
                         (json_response (VDict ∅)))
               (VStr "TOK123") passenger_info currency sample_booking_state
   = (Raise (KeyError (VStr "status")),
      logged sample_booking_state [sample_booking])).
Proof.
  split; [|split].
  - apply (proj1 (missing_keys_raise
                    (scripted (json_response (VDict (<["data" := VList []]> ∅)))
                              (json_response (VDict ∅))))
             0%nat sample_search_state sample_params
             (mkResponse 200 (Some (VDict (<["data" := VList []]> ∅))))
             (<["data" := VList []]> ∅)); try reflexivity.
    apply lacks_results. reflexivity.
  - apply (proj1 (missing_keys_raise
                    (scripted (json_response (VDict (<["_results" := VInt 3]> not_found_body)))
                              (json_response (VDict ∅))))
             0%nat sample_search_state sample_params
             (mkResponse 200 (Some (VDict (<["_results" := VInt 3]> not_found_body))))
             (<["_results" := VInt 3]> not_found_body)); try reflexivity.
    apply (empty_data _ (VInt 3)); reflexivity.
  - apply (proj2 (missing_keys_raise
                    (scripted (json_response (VDict found_body))
                              (json_response (VDict ∅))))
             (VStr "TOK123") passenger_info currency sample_booking_state
             (mkResponse 200 (Some (VDict ∅))) ∅); reflexivity.
Defined.

(** The sample command line with [--one-way] added, and the same behind
    [-h]. *)
Definition conflicting_argv : list string := sample_argv ++ ["--one-way"].
Definition help_first_argv : list string := "-h" :: conflicting_argv.



End ClientFacts.

(** * Further properties *)

(** ** The scan of an accepted command line, step by step *)

Module ScanFacts.
Import Argparse.

(** The scan after a token was left aside. *)
Definition skipped (st : scan) (tok : string) : scan :=
  mkscan (namespace st) (seen_actions st) (extras st ++ [tok]).

(** [steps p argv st st']: [consume] goes through all of [argv] without an
    error and without meeting the help action, from [st] to [st']. *)
Inductive steps (p : ArgumentParser) : list string → scan → scan → Prop :=
  | steps_done st : steps p [] st st
  | steps_skip tok rest st st' :
      _parse_optional p tok = TokArg ∨ _parse_optional p tok = TokUnknown →
      steps p rest (skipped st tok) st' →
      steps p (tok :: rest) st st'
  | steps_const tok a c rest st st1 st' :
      _parse_optional p tok = TokOpt a →
      kind a = StoreConst c →
      take_action p a (Some c) st = inl st1 →
      steps p rest st1 st' →
      steps p (tok :: rest) st st'
  | steps_store tok a t v rest st st1 st' :
      _parse_optional p tok = TokOpt a →
      kind a = Store t →
      is_arg p v = true →
      take_action p a (_get_value t v) st = inl st1 →
      steps p rest st1 st' →
      steps p (tok :: v :: rest) st st'.

Lemma consume_Parsed_steps p n :
  ∀ argv st ns,
    (List.length argv ≤ n)%nat →
    consume p argv st = Parsed ns →
    ∃ st', steps p argv st st' ∧ finish p st' = Parsed ns.
Proof.
  induction n as [|n IH]; intros argv st ns Hlen Hrun.
  - destruct argv; [|cbn in Hlen; lia].
    exists st. split; [constructor | exact Hrun].
  - destruct argv as [|tok rest].
    { exists st. split; [constructor | exact Hrun]. }
    cbn [List.length] in Hlen. cbn [consume] in Hrun.
    destruct (_parse_optional p tok) as [|a|] eqn:Hc.
    + destruct (IH rest _ ns ltac:(lia) Hrun) as (st' & Hs & Hf).
      exists st'. split; [|exact Hf].
      apply steps_skip; [auto | exact Hs].
    + destruct (kind a) as [t|c|] eqn:Hk; [| |discriminate].
      * destruct rest as [|v rest']; [discriminate|].
        destruct (is_arg p v) eqn:Hv; [|discriminate].
        destruct (take_action p a (_get_value t v) st) as [st1|msg] eqn:Ht;
          [|discriminate].
        cbn [List.length] in Hlen.
        destruct (IH rest' _ ns ltac:(lia) Hrun) as (st' & Hs & Hf).
        exists st'. split; [|exact Hf].
        eapply steps_store; eassumption.
      * destruct (take_action p a (Some c) st) as [st1|msg] eqn:Ht;
          [|discriminate].
        destruct (IH rest _ ns ltac:(lia) Hrun) as (st' & Hs & Hf).
        exists st'. split; [|exact Hf].
        eapply steps_const; eassumption.
    + destruct (IH rest _ ns ltac:(lia) Hrun) as (st' & Hs & Hf).
      exists st'. split; [|exact Hf].
      apply steps_skip; [auto | exact Hs].
Qed.

(** The help text comes from a help token. *)
Lemma consume_Help_token p n :
  ∀ argv st,
    (List.length argv ≤ n)%nat →
    consume p argv st = HelpRequested →
    ∃ tok, tok ∈ argv ∧ ArgparseFacts.is_help p tok.
Proof.
  assert (Hfin : ∀ st, finish p st ≠ HelpRequested).
  { intros st. unfold finish. destruct (find _ _); [discriminate|].
    destruct (extras st); discriminate. }
  induction n as [|n IH]; intros argv st Hlen Hrun.
  - destruct argv; [|cbn in Hlen; lia]. destruct (Hfin _ Hrun).
  - destruct argv as [|tok rest]; [destruct (Hfin _ Hrun)|].
    cbn [List.length] in Hlen. cbn [consume] in Hrun.
    assert (Hmore : ∀ pre l : list string,
               (∃ t, t ∈ l ∧ ArgparseFacts.is_help p t) →
               ∃ t, t ∈ (pre ++ l)%list ∧ ArgparseFacts.is_help p t).
    { intros pre l (t & Hin & Hh). exists t. rewrite elem_of_app. auto. }
    destruct (_parse_optional p tok) as [|a|] eqn:Hc.
    + apply (Hmore [tok]). eapply IH; [|exact Hrun]. lia.
    + destruct (kind a) as [t|c|] eqn:Hk.
      * destruct rest as [|v rest']; [discriminate|].
        destruct (is_arg p v); [|discriminate].
        destruct (take_action p a (_get_value t v) st); [|discriminate].
        cbn [List.length] in Hlen.
        apply (Hmore [tok; v]). eapply IH; [|exact Hrun]. lia.
      * destruct (take_action p a (Some c) st); [|discriminate].
        apply (Hmore [tok]). eapply IH; [|exact Hrun]. lia.
      * exists tok. split; [apply elem_of_cons; auto|]. exists a. auto.
    + apply (Hmore [tok]). eapply IH; [|exact Hrun]. lia.
Qed.

(** What [finish] requires to return the Namespace. *)
Lemma finish_Parsed p st ns :
  finish p st = Parsed ns →
  ns = namespace st ∧ extras st = [] ∧
  ∀ a, a ∈ actions p → required a = true → action_name a ∈ seen_actions st.
Proof.
  unfold finish.
  destruct (find _ (actions p)) as [a|] eqn:Hfind; [discriminate|].
  destruct (extras st) eqn:He; [|discriminate].
  intros [= <-]. repeat split.
  intros a Hin Hreq. apply list_elem_of_In in Hin.
  pose proof (find_none _ _ Hfind a Hin) as Hf. cbn beta in Hf.
  rewrite Hreq in Hf. cbn in Hf.
  apply negb_false_iff, bool_decide_eq_true in Hf. exact Hf.
Qed.

(** What a successful [take_action] has done. *)
Lemma take_action_done p a value st st1 :
  take_action p a value st = inl st1 →
  ∃ v, value = Some v ∧
       st1 = mkscan (<[dest a := v]> (namespace st))
                    (action_name a :: seen_actions st) (extras st) ∧
       ∀ c, c ∈ action_conflicts p (action_name a) → c ∉ seen_actions st.
Proof.
  intros Ht.
  destruct (ArgparseFacts.take_action_inl _ _ _ _ _ Ht) as (_ & Hfree).
  unfold take_action in Ht. destruct value as [v|]; [|discriminate].
  destruct (find _ _); [discriminate|]. injection Ht as <-.
  exists v. auto.
Qed.

(** Leftover tokens only pile up. *)
Lemma steps_extras p argv st st' :
  steps p argv st st' → ∃ l, extras st' = extras st ++ l.
Proof.
  induction 1 as [st | tok rest st st' Hc Hs IH
                 | tok a c rest st st1 st' Hc Hk Ht Hs IH
                 | tok a t v rest st st1 st' Hc Hk Hv Ht Hs IH].
  - exists []. symmetry. apply app_nil_r.
  - destruct IH as (l & ->). cbn [skipped extras].
    exists (tok :: l). rewrite <- app_assoc. reflexivity.
  - destruct (take_action_done _ _ _ _ _ Ht) as (v & _ & -> & _).
    exact IH.
  - destruct (take_action_done _ _ _ _ _ Ht) as (w & _ & -> & _).
    exact IH.
Qed.

(** Induction over the scan of a command line that left no token aside:
    every step stores a constant or a value. *)
Lemma accepted_ind p (P : list string → scan → scan → Prop) :
  (∀ st, P [] st st) →
  (∀ tok a c rest st st1 st',
     _parse_optional p tok = TokOpt a → kind a = StoreConst c →
     take_action p a (Some c) st = inl st1 →
     steps p rest st1 st' → extras st' = [] →
     P rest st1 st' → P (tok :: rest) st st') →
  (∀ tok a t v rest st st1 st',
     _parse_optional p tok = TokOpt a → kind a = Store t →
     is_arg p v = true →
     take_action p a (_get_value t v) st = inl st1 →
     steps p rest st1 st' → extras st' = [] →
     P rest st1 st' → P (tok :: v :: rest) st st') →
  ∀ argv st st', steps p argv st st' → extras st' = [] → P argv st st'.
Proof.
  intros Hdone Hconst Hstore argv st st' Hs.
  induction Hs as [st | tok rest st st' Hc Hs IH
                  | tok a c rest st st1 st' Hc Hk Ht Hs IH
                  | tok a t v rest st st1 st' Hc Hk Hv Ht Hs IH]; intros He.
  - apply Hdone.
  - exfalso. destruct (steps_extras _ _ _ _ Hs) as (l & Hl).
    rewrite He in Hl. cbn [skipped extras] in Hl.
    rewrite <- app_assoc in Hl. symmetry in Hl.
    apply app_eq_nil in Hl as (_ & Hl). discriminate.
  - eapply Hconst; eauto.
  - eapply Hstore; eauto.
Qed.

Lemma is_arg_TokArg p v : is_arg p v = true → _parse_optional p v = TokArg.
Proof.
  unfold is_arg. destruct (_parse_optional p v); [reflexivity | discriminate | discriminate].
Qed.

(** After the scan of an accepted command line, the actions seen are those
    seen before and those of the option tokens. *)
Lemma accepted_seen p argv st st' :
  steps p argv st st' → extras st' = [] →
  ∀ name,
    name ∈ seen_actions st' ↔
    name ∈ seen_actions st ∨
    ∃ tok a, tok ∈ argv ∧ _parse_optional p tok = TokOpt a ∧ action_name a = name.
Proof.
  revert argv st st'.
  apply (accepted_ind p (λ argv st st', ∀ name,
    name ∈ seen_actions st' ↔
    name ∈ seen_actions st ∨
    ∃ tok a, tok ∈ argv ∧ _parse_optional p tok = TokOpt a ∧ action_name a = name)).
  - intros st name. split; [auto|].
    intros [H | (tok & a & Hin & _)]; [exact H|].
    apply elem_of_nil in Hin. contradiction.
  - intros tok a c rest st st1 st' Hc Hk Ht Hs _ IH name.
    destruct (take_action_done _ _ _ _ _ Ht) as (v & _ & -> & _).
    rewrite IH. cbn [seen_actions]. rewrite elem_of_cons. split.
    + intros [[-> | H] | (tok' & a' & Hin & Hc' & Hn)]; [| auto |].
      * right. exists tok, a. rewrite elem_of_cons. auto.
      * right. exists tok', a'. rewrite elem_of_cons. auto.
    + intros [H | (tok' & a' & Hin & Hc' & Hn)]; [auto|].
      apply elem_of_cons in Hin as [-> | Hin].
      * rewrite Hc in Hc'. injection Hc' as <-. auto.
      * right. exists tok', a'. auto.
  - intros tok a t v rest st st1 st' Hc Hk Hv Ht Hs _ IH name.
    destruct (take_action_done _ _ _ _ _ Ht) as (w & _ & -> & _).
    rewrite IH. cbn [seen_actions]. rewrite elem_of_cons. split.
    + intros [[-> | H] | (tok' & a' & Hin & Hc' & Hn)]; [| auto |].
      * right. exists tok, a. rewrite elem_of_cons. auto.
      * right. exists tok', a'. rewrite !elem_of_cons. auto.
    + intros [H | (tok' & a' & Hin & Hc' & Hn)]; [auto|].
      apply elem_of_cons in Hin as [-> | Hin].
      * rewrite Hc in Hc'. injection Hc' as <-. auto.
      * apply elem_of_cons in Hin as [-> | Hin].
        -- apply is_arg_TokArg in Hv. rewrite Hv in Hc'. discriminate.
        -- right. exists tok', a'. auto.
Qed.

(** An accepted command line is made of option strings written in full and
    of their values. *)
Lemma accepted_plain p argv st st' :
  steps p argv st st' → extras st' = [] → Forall (plain p) argv.
Proof.
  revert argv st st'.
  apply (accepted_ind p (λ argv _ _, Forall (plain p) argv)).
  - intros st. constructor.
  - intros tok a c rest st st1 st' Hc _ _ _ _ IH.
    constructor; [|exact IH]. unfold plain. rewrite Hc. discriminate.
  - intros tok a t v rest st st1 st' Hc _ Hv _ _ _ IH.
    constructor; [unfold plain; rewrite Hc; discriminate|].
    constructor; [|exact IH].
    unfold plain. rewrite (is_arg_TokArg _ _ Hv). discriminate.
Qed.

End ScanFacts.

(** ** The Namespace the program's parser returns *)

Module NamespaceFacts.
Import Argparse BookFlight ScanFacts.

Lemma parse_optional_action p tok a :
  _parse_optional p tok = TokOpt a →
  a ∈ actions p ∧ tok ∈ option_strings a.
Proof.
  unfold _parse_optional. destruct tok as [|c t]; [discriminate|].
  destruct (Ascii.eqb c "-"); [|discriminate].
  destruct (find_action p (String c t)) as [b|] eqn:Hf; [|discriminate].
  intros [= <-]. apply find_some in Hf as (Hin & Hdec).
  apply bool_decide_eq_true in Hdec. apply list_elem_of_In in Hin. auto.
Qed.

(** The attribute [dest] follows the option [name]: it holds [unset] until
    the option is seen, and a value that satisfies [set] from then on. *)
Definition tracks (name dest : string) (unset : pyval) (set : pyval → Prop)
    (st : scan) : Prop :=
  ((name ∉ seen_actions st) ∧ namespace st !! dest = Some unset)
  ∨ (name ∈ seen_actions st ∧ ∃ v, namespace st !! dest = Some v ∧ set v).

Definition is_str (v : pyval) : Prop := ∃ s, v = VStr s.
Definition is_int (v : pyval) : Prop := ∃ n, v = VInt n.

Definition six_keys : gset string :=
  {["dateFrom"]} ∪ {["flyFrom"]} ∪ {["to"]} ∪ {["typeFlight"]}
  ∪ {["daysInDestination"]} ∪ {["sort"]}.

(** What holds of the scan at every step. *)
Record typed (st : scan) : Prop := mktyped {
  typed_dom : dom (namespace st) = six_keys;
  typed_date : tracks "--date" "dateFrom" VNone is_str st;
  typed_from : tracks "--from" "flyFrom" VNone is_str st;
  typed_to : tracks "--to" "to" VNone is_str st;
  typed_type :
    tracks "--one-way" "typeFlight" VNone (λ v, v = VStr "oneway") st;
  typed_days : tracks "--return" "daysInDestination" VNone is_int st;
  typed_sort :
    tracks "--shortest" "sort" (VStr "price") (λ v, v = VStr "duration") st;
  typed_trip :
    ¬ ("--one-way" ∈ seen_actions st ∧ "--return" ∈ seen_actions st);
  typed_order :
    ¬ ("--cheapest" ∈ seen_actions st ∧ "--shortest" ∈ seen_actions st)
}.

Lemma tracks_other name dest unset set st name' dest' w :
  name ≠ name' → dest ≠ dest' →
  tracks name dest unset set st →
  tracks name dest unset set
    (mkscan (<[dest' := w]> (namespace st)) (name' :: seen_actions st)
            (extras st)).
Proof.
  intros Hn Hd [(Hs & Hl) | (Hs & Hl)]; [left | right];
    cbn [seen_actions namespace]; rewrite elem_of_cons, lookup_insert_ne by auto;
    split; auto.
  intros [? | ?]; [congruence | contradiction].
Qed.

Lemma tracks_self name dest unset (set : pyval → Prop) st w :
  set w →
  tracks name dest unset set
    (mkscan (<[dest := w]> (namespace st)) (name :: seen_actions st)
            (extras st)).
Proof.
  intros Hw. right. cbn [seen_actions namespace].
  rewrite elem_of_cons, lookup_insert_eq. eauto.
Qed.

(** [--cheapest] writes to the attribute that follows [--shortest]; it is
    taken only if [--shortest] was not seen, and stores the default. *)
Lemma tracks_sort_cheapest set st :
  "--shortest" ∉ seen_actions st →
  tracks "--shortest" "sort" (VStr "price") set
    (mkscan (<["sort" := VStr "price"]> (namespace st))
            ("--cheapest" :: seen_actions st) (extras st)).
Proof.
  intros Hs. left. cbn [seen_actions namespace].
  rewrite elem_of_cons, lookup_insert_eq. split; [|reflexivity].
  intros [? | ?]; [discriminate | contradiction].
Qed.

Lemma initial_typed :
  typed (mkscan (set_defaults (actions create_arg_parser) ∅) [] []).
Proof.
  assert (Hns : set_defaults (actions create_arg_parser) ∅
                = <["sort" := VStr "price"]> (<["daysInDestination" := VNone]>
                  (<["typeFlight" := VNone]> (<["to" := VNone]>
                  (<["flyFrom" := VNone]> (<["dateFrom" := VNone]> ∅))))))
    by (vm_compute; reflexivity).
  rewrite Hns.
  split; cbn [seen_actions namespace];
    try (left; split; [apply not_elem_of_nil | reflexivity]);
    try (intros (H & _); apply elem_of_nil in H; contradiction).
  rewrite !dom_insert_L, dom_empty_L. unfold six_keys. set_solver.
Qed.

(** The value a storing step hands to [take_action]. *)
Definition step_value (a : Action) (value : option pyval) : Prop :=
  (∃ c, kind a = StoreConst c ∧ value = Some c)
  ∨ (∃ t v, kind a = Store t ∧ value = _get_value t v).

Lemma excluded_one_way :
  "--return" ∈ action_conflicts create_arg_parser "--one-way".
Proof. vm_compute. apply elem_of_cons. left. reflexivity. Qed.

Lemma excluded_return :
  "--one-way" ∈ action_conflicts create_arg_parser "--return".
Proof. vm_compute. apply elem_of_cons. left. reflexivity. Qed.

Lemma excluded_cheapest :
  "--shortest" ∈ action_conflicts create_arg_parser "--cheapest".
Proof. vm_compute. apply elem_of_cons. left. reflexivity. Qed.

Lemma excluded_shortest :
  "--cheapest" ∈ action_conflicts create_arg_parser "--shortest".
Proof. vm_compute. apply elem_of_cons. left. reflexivity. Qed.

(** Every storing step keeps the scan typed. *)
Lemma typed_step tok a value st st1 :
  typed st →
  _parse_optional create_arg_parser tok = TokOpt a →
  step_value a value →
  take_action create_arg_parser a value st = inl st1 →
  typed st1.
Proof.
  intros [Hdom Hdate Hfrom Hto Htype Hdays Hsort Htrip Horder] Hc Hval Ht.
  destruct (take_action_done _ _ _ _ _ Ht) as (w & -> & -> & Hfree).
  destruct (parse_optional_action _ _ _ Hc) as (Hin & _).
  cbn [actions create_arg_parser] in Hin.
  repeat (apply elem_of_cons in Hin as [-> | Hin]);
    [| | | | | | | | apply elem_of_nil in Hin; contradiction];
    cbn [action_name option_strings head dest] in *;
    (destruct Hval as [(c & Hk & Hw) | (t & v & Hk & Hw)];
     cbn [kind] in Hk; try discriminate Hk;
     injection Hk as <-; cbn [_get_value] in Hw);
    try (destruct (py_int v) as [n|]; cbn in Hw; [|discriminate Hw]);
    injection Hw as ->;
    (split; cbn [seen_actions namespace];
     [ rewrite dom_insert_L, Hdom; unfold six_keys; set_solver
     | first [ apply tracks_self; eexists; reflexivity
             | apply tracks_other; [discriminate | discriminate | assumption] ]
     | first [ apply tracks_self; eexists; reflexivity
             | apply tracks_other; [discriminate | discriminate | assumption] ]
     | first [ apply tracks_self; eexists; reflexivity
             | apply tracks_other; [discriminate | discriminate | assumption] ]
     | first [ apply tracks_self; reflexivity
             | apply tracks_other; [discriminate | discriminate | assumption] ]
     | first [ apply tracks_self; eexists; reflexivity
             | apply tracks_other; [discriminate | discriminate | assumption] ]
     | first [ apply tracks_self; reflexivity
             | apply tracks_sort_cheapest; apply Hfree, excluded_cheapest
             | apply tracks_other; [discriminate | discriminate | assumption] ]
     | rewrite !elem_of_cons;
       intros ([H1 | H1] & [H2 | H2]); try discriminate;
       first [ apply Htrip; split; assumption
             | apply (Hfree "--return"); [apply excluded_one_way | assumption]
             | apply (Hfree "--one-way"); [apply excluded_return | assumption] ]
     | rewrite !elem_of_cons;
       intros ([H1 | H1] & [H2 | H2]); try discriminate;
       first [ apply Horder; split; assumption
             | apply (Hfree "--shortest"); [apply excluded_cheapest | assumption]
             | apply (Hfree "--cheapest"); [apply excluded_shortest | assumption] ]
     ]).
Qed.

Lemma accepted_typed argv st st' :
  steps create_arg_parser argv st st' → extras st' = [] →
  typed st → typed st'.
Proof.
  revert argv st st'.
  apply (accepted_ind create_arg_parser (λ _ st st', typed st → typed st')).
  - auto.
  - intros tok a c rest st st1 st' Hc Hk Ht _ _ IH Hty. apply IH.
    apply (typed_step tok a (Some c) st st1 Hty Hc); [|exact Ht].
    left. eauto.
  - intros tok a t v rest st st1 st' Hc Hk _ Ht _ _ IH Hty. apply IH.
    apply (typed_step tok a (_get_value t v) st st1 Hty Hc); [|exact Ht].
    right. eauto.
Qed.

(** An option of the parser with one option string of its own. *)
Definition own_option (name : string) : Prop :=
  name ≠ "-h" ∧
  ∃ a, _parse_optional create_arg_parser name = TokOpt a ∧ action_name a = name.

Lemma own_option_token name tok a :
  name ≠ "-h" →
  _parse_optional create_arg_parser tok = TokOpt a →
  action_name a = name → tok = name.
Proof.
  intros Hh Hc Hn. destruct (parse_optional_action _ _ _ Hc) as (Hin & Hopt).
  cbn [actions create_arg_parser] in Hin.
  repeat (apply elem_of_cons in Hin as [-> | Hin]);
    [| | | | | | | | apply elem_of_nil in Hin; contradiction];
    cbn [action_name option_strings head] in *; subst name;
    try (exfalso; apply Hh; reflexivity);
    (apply elem_of_cons in Hopt as [-> | Hopt];
     [reflexivity | apply elem_of_nil in Hopt; contradiction]).
Qed.

(** What a returned Namespace comes from: a scan of the whole command line
    that kept the invariant and saw the required options. *)
Lemma parsed_scan argv ns :
  parse_args create_arg_parser argv = Parsed ns →
  ∃ st0 st',
    seen_actions st0 = [] ∧
    steps create_arg_parser argv st0 st' ∧
    extras st' = [] ∧ ns = namespace st' ∧ typed st' ∧
    "--date" ∈ seen_actions st' ∧ "--from" ∈ seen_actions st' ∧
    "--to" ∈ seen_actions st' ∧
    ∀ name, own_option name → (name ∈ seen_actions st' ↔ name ∈ argv).
Proof.
  unfold parse_args. intros Hrun.
  destruct (consume_Parsed_steps _ (List.length argv) _ _ _ (le_n _) Hrun)
    as (st' & Hs & Hf).
  destruct (finish_Parsed _ _ _ Hf) as (-> & He & Hreq).
  do 2 eexists. split; [|split; [exact Hs|]]; [reflexivity|].
  split; [exact He|]. split; [reflexivity|].
  split; [exact (accepted_typed _ _ _ Hs He initial_typed)|].
  assert (Hact : ∀ a, a ∈ actions create_arg_parser → required a = true →
                      action_name a ∈ seen_actions st') by exact Hreq.
  split; [apply (Hact (mkAction ["--date"] "dateFrom" (Store TStr) VNone true));
          [cbn; rewrite !elem_of_cons; auto | reflexivity]|].
  split; [apply (Hact (mkAction ["--from"] "flyFrom" (Store TStr) VNone true));
          [cbn; rewrite !elem_of_cons; auto | reflexivity]|].
  split; [apply (Hact (mkAction ["--to"] "to" (Store TStr) VNone true));
          [cbn; rewrite !elem_of_cons; auto | reflexivity]|].
  intros name (Hh & a & Hc & Hn).
  rewrite (accepted_seen _ _ _ _ Hs He name). cbn [seen_actions]. split.
  - intros [H | (tok & b & Hin & Hcb & Hnb)];
      [apply elem_of_nil in H; contradiction|].
    rewrite <- (own_option_token name tok b Hh Hcb Hnb). exact Hin.
  - intros Hin. right. exists name, a. auto.
Qed.

(** The shape of a Namespace: the six attributes, the three required ones
    strings, the trip type [None] or ["oneway"], the days [None] or an
    integer, the sort key ["price"] or ["duration"], and never both
    ["oneway"] and a number of days. *)
Definition parsed_shape (ns : gmap string pyval) : Prop :=
  dom ns = six_keys ∧
  (∃ d f t, ns !! "dateFrom" = Some (VStr d) ∧
            ns !! "flyFrom" = Some (VStr f) ∧
            ns !! "to" = Some (VStr t)) ∧
  (ns !! "typeFlight" = Some VNone ∨
   ns !! "typeFlight" = Some (VStr "oneway")) ∧
  (ns !! "daysInDestination" = Some VNone ∨
   ∃ n, ns !! "daysInDestination" = Some (VInt n)) ∧
  (ns !! "sort" = Some (VStr "price") ∨
   ns !! "sort" = Some (VStr "duration")) ∧
  ¬ (ns !! "typeFlight" = Some (VStr "oneway") ∧
     ∃ n, ns !! "daysInDestination" = Some (VInt n)).

Lemma tracks_seen name dest unset set st :
  tracks name dest unset set st → name ∈ seen_actions st →
  ∃ v, namespace st !! dest = Some v ∧ set v.
Proof. intros [(H & _) | (_ & H)] Hin; [contradiction | exact H]. Qed.

Lemma tracks_cases name dest unset set st :
  tracks name dest unset set st →
  namespace st !! dest = Some unset
  ∨ ∃ v, namespace st !! dest = Some v ∧ set v.
Proof. intros [(_ & H) | (_ & H)]; auto. Qed.


(** How a Namespace reflects the options of the command line. *)
Definition reflects (argv : list string) (ns : gmap string pyval) : Prop :=
  ("--one-way" ∈ argv ↔ ns !! "typeFlight" = Some (VStr "oneway")) ∧
  ("--return" ∈ argv ↔ ∃ n, ns !! "daysInDestination" = Some (VInt n)) ∧
  ("--shortest" ∈ argv ↔ ns !! "sort" = Some (VStr "duration")) ∧
  ("--shortest" ∉ argv ↔ ns !! "sort" = Some (VStr "price")).

Lemma tracks_iff name dest unset (set : pyval → Prop) st :
  tracks name dest unset set st → ¬ set unset →
  (name ∈ seen_actions st ↔ ∃ v, namespace st !! dest = Some v ∧ set v).
Proof.
  intros [(Hs & Hl) | (Hs & Hl)] Hne; split; auto.
  - contradiction.
  - intros (v & Hv & Hset). rewrite Hl in Hv. injection Hv as <-.
    contradiction.
Qed.

(** X2: in a Namespace that [parse_args] returns, [typeFlight] is
    ["oneway"] exactly when [--one-way] is on the command line,
    [daysInDestination] is an integer exactly when [--return] is, and
    [sort] is ["duration"] exactly when [--shortest] is and ["price"]
    otherwise. *)
Theorem options_decide_attributes argv ns :
  parse_args create_arg_parser argv = Parsed ns → reflects argv ns.
Proof.
  intros Hrun.
  destruct (parsed_scan _ _ Hrun)
    as (st0 & st' & _ & _ & _ & -> & Hty & _ & _ & _ & Hseen).
  destruct Hty as [Hdom Hdate Hfrom Hto Htype Hdays Hsort Htrip Horder].
  assert (H1 : own_option "--one-way")
    by (split; [discriminate | eexists; split; reflexivity]).
  assert (H2 : own_option "--return")
    by (split; [discriminate | eexists; split; reflexivity]).
  assert (H3 : own_option "--shortest")
    by (split; [discriminate | eexists; split; reflexivity]).
  unfold reflects.
  rewrite <- (Hseen _ H1), <- (Hseen _ H2), <- (Hseen _ H3).
  split; [|split; [|split]].
  - rewrite (tracks_iff _ _ _ _ _ Htype) by discriminate. split.
    + intros (v & Hv & ->). exact Hv.
    + eauto.
  - rewrite (tracks_iff _ _ _ _ _ Hdays) by (intros (n & Hn); discriminate).
    split.
    + intros (v & Hv & n & ->). eauto.
    + intros (n & Hn). exists (VInt n). split; [exact Hn | eexists; reflexivity].
  - rewrite (tracks_iff _ _ _ _ _ Hsort) by discriminate. split.
    + intros (v & Hv & ->). exact Hv.
    + eauto.
  - destruct Hsort as [(Hs & Hl) | (Hs & v & Hl & ->)].
    + split; auto.
    + split; [intros Hn; contradiction | rewrite Hl; discriminate].
Qed.

(** Steps that do not write to an attribute leave it as it was. *)
Lemma accepted_frame p dst argv st st' :
  steps p argv st st' → extras st' = [] →
  (∀ tok b, tok ∈ argv → _parse_optional p tok = TokOpt b → dest b ≠ dst) →
  namespace st' !! dst = namespace st !! dst.
Proof.
  revert argv st st'.
  apply (accepted_ind p (λ argv st st',
    (∀ tok b, tok ∈ argv → _parse_optional p tok = TokOpt b → dest b ≠ dst) →
    namespace st' !! dst = namespace st !! dst)).
  - reflexivity.
  - intros tok a c rest st st1 st' Hc Hk Ht _ _ IH Hno.
    destruct (take_action_done _ _ _ _ _ Ht) as (w & _ & -> & _).
    rewrite IH by (intros tok' b Hin; apply Hno, elem_of_cons; auto).
    cbn [namespace]. apply lookup_insert_ne.
    apply (Hno tok a); [apply elem_of_cons; auto | exact Hc].
  - intros tok a t v rest st st1 st' Hc Hk Hv Ht _ _ IH Hno.
    destruct (take_action_done _ _ _ _ _ Ht) as (w & _ & -> & _).
    rewrite IH by (intros tok' b Hin; apply Hno; rewrite !elem_of_cons; auto).
    cbn [namespace]. apply lookup_insert_ne.
    apply (Hno tok a); [apply elem_of_cons; auto | exact Hc].
Qed.

(** The value behind the last occurrence of a storing option is the one
    its attribute holds at the end. *)
Lemma accepted_last_value p x a t v post :
  _parse_optional p x = TokOpt a → kind a = Store t →
  (∀ tok b, tok ∈ post → _parse_optional p tok = TokOpt b → dest b ≠ dest a) →
  ∀ argv st st',
    steps p argv st st' → extras st' = [] →
    ∀ pre, argv = pre ++ x :: v :: post →
           namespace st' !! dest a = _get_value t v.
Proof.
  intros Hx Hkx Hpost.
  apply (accepted_ind p (λ argv st st',
    ∀ pre, argv = pre ++ x :: v :: post →
           namespace st' !! dest a = _get_value t v)).
  - intros st pre H. destruct pre; discriminate.
  - intros tok a' c rest st st1 st' Hc Hk Ht Hs He IH pre Heq.
    destruct pre as [|y pre]; cbn [app] in Heq; injection Heq as -> ->.
    + rewrite Hx in Hc. injection Hc as <-. congruence.
    + apply (IH pre). reflexivity.
  - intros tok a' t' v' rest st st1 st' Hc Hk Hv Ht Hs He IH pre Heq.
    destruct pre as [|y [|z pre]]; cbn [app] in Heq.
    + injection Heq as -> -> ->.
      rewrite Hx in Hc. injection Hc as <-.
      rewrite Hkx in Hk. injection Hk as <-.
      destruct (take_action_done _ _ _ _ _ Ht) as (w & Hw & -> & _).
      rewrite (accepted_frame p (dest a) post _ st' Hs He Hpost).
      cbn [namespace]. rewrite lookup_insert_eq. symmetry. exact Hw.
    + injection Heq as -> -> ->.
      apply is_arg_TokArg in Hv. rewrite Hv in Hx. discriminate.
    + injection Heq as -> -> ->. apply (IH pre). reflexivity.
Qed.

(** X3: in an accepted command line, the value behind the last [--date]
    ([--from], [--to]) is the string that [dateFrom] ([flyFrom], [to])
    holds, and [daysInDestination] is [int] of the value behind the last
    [--return]. *)
Theorem last_value_is_stored argv ns a t pre v post :
  parse_args create_arg_parser argv = Parsed ns →
  a ∈ actions create_arg_parser →
  kind a = Store t →
  argv = pre ++ action_name a :: v :: post →
  action_name a ∉ post →
  ns !! dest a = _get_value t v.
Proof.
  intros Hrun Hin Hk Heq Hlast.
  destruct (parsed_scan _ _ Hrun)
    as (st0 & st' & _ & Hs & He & -> & _).
  apply (accepted_last_value create_arg_parser (action_name a) a t v post)
    with (argv := argv) (st := st0) (pre := pre); try assumption.
  - cbn [actions create_arg_parser] in Hin.
    repeat (apply elem_of_cons in Hin as [-> | Hin]);
      [| | | | | | | | apply elem_of_nil in Hin; contradiction];
      try discriminate Hk; reflexivity.
  - intros tok b Hinb Hcb Hd.
    destruct (parse_optional_action _ _ _ Hcb) as (Hb & Hopt).
    apply Hlast.
    cbn [actions create_arg_parser] in Hin, Hb.
    repeat (apply elem_of_cons in Hin as [-> | Hin]);
      [| | | | | | | | apply elem_of_nil in Hin; contradiction];
      try discriminate Hk;
      (repeat (apply elem_of_cons in Hb as [-> | Hb]);
       [| | | | | | | | apply elem_of_nil in Hb; contradiction];
       try discriminate Hd;
       cbn [option_strings action_name head] in *;
       apply elem_of_cons in Hopt as [-> | Hopt];
       [exact Hinb | apply elem_of_nil in Hopt; contradiction]).
Qed.

Import ClientFacts.


Lemma options_decide_attributes_witness :
  reflects sample_argv sample_namespace.
Proof.
  apply (options_decide_attributes sample_argv sample_namespace).
  vm_compute. reflexivity.
Defined.

(** The sample command line with a second [--date] and a second
    [--return]: the later values are the ones stored. *)
Lemma last_value_is_stored_witness :
  match parse_args create_arg_parser
          (sample_argv ++ ["--date"; "2024-07-02"; "--return"; "14"]) with
  | Parsed ns =>
      ns !! "dateFrom" = Some (VStr "2024-07-02") ∧
      ns !! "daysInDestination" = Some (VInt 14)
  | _ => False
  end.
Proof.
  destruct (parse_args create_arg_parser
              (sample_argv ++ ["--date"; "2024-07-02"; "--return"; "14"]))
    as [ns| |] eqn:Hrun; [|vm_compute in Hrun; discriminate Hrun
                          |vm_compute in Hrun; discriminate Hrun].
  split.
  - apply (last_value_is_stored _ ns
             (mkAction ["--date"] "dateFrom" (Store TStr) VNone true) TStr
             sample_argv "2024-07-02" ["--return"; "14"] Hrun).
    + cbn. rewrite !elem_of_cons. auto.
    + reflexivity.
    + reflexivity.
    + rewrite !elem_of_cons, elem_of_nil. intros [H | [H | []]]; discriminate.
  - apply (last_value_is_stored _ ns
             (mkAction ["--return"] "daysInDestination" (Store TInt) VNone false)
             TInt (sample_argv ++ ["--date"; "2024-07-02"]) "14" [] Hrun).
    + cbn. rewrite !elem_of_cons. auto 10.
    + reflexivity.
    + reflexivity.
    + apply not_elem_of_nil.
Defined.

End NamespaceFacts.

(** ** The driver up to the search request *)

Module DriverFacts.
Import Datetime Argparse BookFlight Run ClientFacts ScanFacts NamespaceFacts.

(** A date that [strptime] returns is a date of the calendar. *)
Lemma strptime_valid s fmt dt : strptime s fmt = Some dt → valid_date dt.
Proof.
  unfold strptime, valid_date.
  destruct (re_match fmt s no_group) as [|[f rest] tl]; [discriminate|].
  destruct rest; [|discriminate].
  destruct (_check_date_fields _ _ _) eqn:Hcheck; [|discriminate].
  intros [= <-]. exact Hcheck.
Qed.

Lemma strftime_d_m_Y_length dt :
  String.length (strftime dt fmt_d_m_Y)
  = (6 + String.length (decimal (year dt)))%nat.
Proof.
  destruct dt as [y m d]. cbn [year].
  rewrite DatetimeFacts.strftime_d_m_Y_eq, DatetimeFacts.append_empty.
  unfold pad2. reflexivity.
Qed.



Lemma alloc_initial ns :
  alloc ns initial_state = (Ret 0%nat, mkstate (<[0%nat := ns]> ∅) []).
Proof.
  unfold alloc, initial_state. cbn [heap trace].
  replace (fresh (dom (∅ : gmap loc (gmap string pyval)))) with 0%nat
    by (vm_compute; reflexivity).
  reflexivity.
Qed.

Section Network.

Variable network :
  http_method → string → option (gmap string pyval) → option pyval → net_result.

Lemma main_usage argv message :
  parse_args create_arg_parser argv = ArgError message →
  main network argv initial_state = (Exit 2, mkstate ∅ [Usage message]).
Proof. intros H. unfold main. rewrite H. reflexivity. Qed.

Lemma main_help argv :
  parse_args create_arg_parser argv = HelpRequested →
  main network argv initial_state = (Exit 0, mkstate ∅ [Help]).
Proof. intros H. unfold main. rewrite H. reflexivity. Qed.

Lemma main_parsed argv ns :
  parse_args create_arg_parser argv = Parsed ns →
  main network argv initial_state
  = (search_payload <- format_payload_for_get_request 0%nat ;;
     booking_token <- find_flight network search_payload ;;
     pnr_number <- book_flight network booking_token passenger_info currency ;;
     print (StrOf pnr_number)) (mkstate (<[0%nat := ns]> ∅) []).
Proof.
  intros H. unfold main. rewrite H.
  rewrite (bind_Ret _ _ _ _ _ (alloc_initial ns)). reflexivity.
Qed.

(** How the parser can answer. *)
Lemma parse_cases argv :
  (∃ ns, parse_args create_arg_parser argv = Parsed ns)
  ∨ (∃ message, parse_args create_arg_parser argv = ArgError message)
  ∨ (parse_args create_arg_parser argv = HelpRequested ∧
     ("-h" ∈ argv ∨ "--help" ∈ argv)).
Proof.
  destruct (parse_args create_arg_parser argv) as [ns|message|] eqn:H; eauto.
  right. right. split; [reflexivity|].
  unfold parse_args in H.
  destruct (consume_Help_token _ (List.length argv) _ _ (le_n _) H)
    as (tok & Hin & Hh).
  apply ArgparseFacts.help_tokens in Hh as [-> | ->]; auto.
Qed.



(** What the search request carries. *)
Definition search_params (argv : list string) (params : gmap string pyval)
  : Prop :=
  (∀ k, params !! k ≠ Some VNone) ∧
  ("--return" ∈ argv →
     params !! "typeFlight" = Some (VStr "return") ∧
     ∃ n, params !! "daysInDestination" = Some (VInt n)) ∧
  ("--return" ∉ argv →
     params !! "typeFlight" = Some (VStr "oneway") ∧
     params !! "daysInDestination" = None) ∧
  ("--shortest" ∈ argv → params !! "sort" = Some (VStr "duration")) ∧
  ("--shortest" ∉ argv → params !! "sort" = Some (VStr "price")) ∧
  (∃ f t, params !! "flyFrom" = Some (VStr f) ∧
          params !! "to" = Some (VStr t)) ∧
  ∃ dt, valid_date dt ∧
        params !! "dateFrom" = Some (VStr (strftime dt fmt_d_m_Y)).

Lemma six_keys_cases k :
  k ∈ six_keys →
  k = "dateFrom" ∨ k = "flyFrom" ∨ k = "to" ∨ k = "typeFlight"
  ∨ k = "daysInDestination" ∨ k = "sort".
Proof.
  unfold six_keys. rewrite !elem_of_union, !elem_of_singleton. tauto.
Qed.


(** *** What the two client functions can do to the state *)

(** A computation is tame when it leaves the store alone, only adds to the
    trace, and leaves the process with no exit code but [code]. *)
Definition tame (code : Z) {A} (c : M A) : Prop :=
  ∀ σ o σ', c σ = (o, σ') →
    heap σ' = heap σ ∧
    (∃ l, trace σ' = trace σ ++ l) ∧
    (∀ n, o = Exit n → n = code).

Lemma bind_inv {A B} (c : M A) (k : A → M B) σ o σ'' :
  bind c k σ = (o, σ'') →
  (∃ a σ', c σ = (Ret a, σ') ∧ k a σ' = (o, σ''))
  ∨ (∃ n, c σ = (Exit n, σ'') ∧ o = Exit n)
  ∨ (∃ e, c σ = (Raise e, σ'') ∧ o = Raise e).
Proof.
  unfold bind. destruct (c σ) as [[a | n | e] σ']; intros H.
  - left. eauto.
  - right. left. injection H as <- <-. eauto.
  - right. right. injection H as <- <-. eauto.
Qed.

Lemma tame_ret code {A} (a : A) : tame code (ret a).
Proof.
  intros σ o σ' [= <- <-]. split; [reflexivity|]. split.
  - exists []. symmetry. apply app_nil_r.
  - discriminate.
Qed.

Lemma tame_raise code {A} e : tame code (@raise A e).
Proof.
  intros σ o σ' [= <- <-]. split; [reflexivity|]. split.
  - exists []. symmetry. apply app_nil_r.
  - discriminate.
Qed.

Lemma tame_sys_exit code {A} : tame code (@sys_exit A code).
Proof.
  intros σ o σ' [= <- <-]. split; [reflexivity|]. split.
  - exists []. symmetry. apply app_nil_r.
  - intros n [= <-]. reflexivity.
Qed.

Lemma tame_emit code e : tame code (emit e).
Proof.
  intros σ o σ' [= <- <-]. split; [reflexivity|]. split.
  - exists [e]. reflexivity.
  - discriminate.
Qed.

Lemma tame_bind code {A B} (c : M A) (k : A → M B) :
  tame code c → (∀ a, tame code (k a)) → tame code (bind c k).
Proof.
  intros Hc Hk σ o σ'' Hrun.
  destruct (bind_inv _ _ _ _ _ Hrun)
    as [(a & σ' & H1 & H2) | [(n & H1 & ->) | (e & H1 & ->)]].
  - destruct (Hc _ _ _ H1) as (Hh1 & (l1 & Ht1) & _).
    destruct (Hk a _ _ _ H2) as (Hh2 & (l2 & Ht2) & Hx).
    split; [congruence|]. split; [|exact Hx].
    exists (l1 ++ l2). rewrite Ht2, Ht1, app_assoc. reflexivity.
  - destruct (Hc _ _ _ H1) as (Hh & Ht & Hx).
    split; [exact Hh|]. split; [exact Ht|].
    intros m [= <-]. apply Hx. reflexivity.
  - destruct (Hc _ _ _ H1) as (Hh & Ht & _).
    split; [exact Hh|]. split; [exact Ht | discriminate].
Qed.

Lemma tame_deref code l : tame code (deref l).
Proof.
  unfold deref. intros σ o σ' H.
  destruct (heap σ !! l); injection H as <- <-;
    (split; [reflexivity|]; split;
     [exists []; symmetry; apply app_nil_r | discriminate]).
Qed.

Lemma tame_subscript_str code v key : tame code (subscript_str v key).
Proof.
  unfold subscript_str. destruct v as [| | | | | |d];
    try apply tame_raise.
  destruct (d !! key); [apply tame_ret | apply tame_raise].
Qed.

Lemma tame_subscript_0 code v : tame code (subscript_0 v).
Proof.
  unfold subscript_0. destruct v as [| | | |[|c t]|[|y l]|d];
    first [apply tame_ret | apply tame_raise].
Qed.

Lemma tame_request request url params json :
  tame 1 (request_server_response network request url params json).
Proof.
  unfold request_server_response.
  apply tame_bind; [apply tame_emit | intros _].
  destruct (network request url params json).
  - apply tame_ret.
  - apply tame_bind; [apply tame_emit | intros _].
    apply tame_bind; [apply tame_emit | intros _]. apply tame_sys_exit.
  - apply tame_raise.
Qed.

Lemma tame_parse_json r : tame 1 (parse_json r).
Proof.
  unfold parse_json. destruct (json_body r); [apply tame_ret|].
  apply tame_bind; [apply tame_emit | intros _]. apply tame_sys_exit.
Qed.

Ltac tame_steps :=
  repeat first
    [ apply tame_bind; [|intros ?]
    | apply tame_deref | apply tame_request | apply tame_parse_json
    | apply tame_subscript_str | apply tame_subscript_0
    | apply tame_emit | apply tame_sys_exit | apply tame_ret | apply tame_raise
    | match goal with
      | |- tame _ (if ?b then _ else _) => destruct b
      | |- tame _ (match ?x with _ => _ end) => destruct x
      end ].

Lemma tame_find_flight payload : tame 1 (find_flight network payload).
Proof. unfold find_flight. tame_steps. Qed.

Lemma tame_book_flight token pass_info currency_name :
  tame 1 (book_flight network token pass_info currency_name).
Proof. unfold book_flight. tame_steps. Qed.

(** X8: [find_flight] and [book_flight] never change the store, never
    take anything back from the trace, and never leave the process with an
    exit code other than 1. *)
Theorem client_functions_are_tame :
  (∀ payload, tame 1 (find_flight network payload))
  ∧ (∀ token pass_info currency_name,
       tame 1 (book_flight network token pass_info currency_name)).
Proof.
  split.
  - intros payload σ o σ' Hrun.
    exact (tame_find_flight payload σ o σ' Hrun).
  - intros token pass_info currency_name σ o σ' Hrun.
    exact (tame_book_flight token pass_info currency_name σ o σ' Hrun).
Qed.

(** The search request is the first thing [find_flight] adds to the
    trace. *)
Lemma find_flight_sends_first payload σ params o σ' :
  heap σ !! payload = Some params →
  find_flight network payload σ = (o, σ') →
  ∃ l, trace σ' = trace σ ++ Request GET search_url (Some params) None :: l.
Proof.
  intros Hh. unfold find_flight.
  rewrite (bind_Ret _ _ _ _ _ (deref_run _ _ _ Hh)).
  unfold request_server_response. rewrite !bind_assoc.
  rewrite (bind_Ret (emit _) _ σ tt
             (logged σ [Request GET search_url (Some params) None]) eq_refl).
  intros Hrun.
  match type of Hrun with
  | ?c _ = _ => assert (Ht : tame 1 c) by tame_steps
  end.
  destruct (Ht _ _ _ Hrun) as (_ & (l & Hl) & _).
  exists l. rewrite Hl. unfold logged. cbn [trace].
  rewrite <- app_assoc. reflexivity.
Qed.

(** What the formatter does to a Namespace of the parser. *)
Lemma format_parsed_cases ns :
  parsed_shape ns →
  (∃ σ, format_payload_for_get_request 0%nat (mkstate (<[0%nat := ns]> ∅) [])
        = (Ret 0%nat, σ) ∧ trace σ = [] ∧ is_Some (heap σ !! 0%nat))
  ∨ (∃ σ, format_payload_for_get_request 0%nat (mkstate (<[0%nat := ns]> ∅) [])
          = (Exit 2, σ) ∧ trace σ = [Print (Text date_format_message)]).
Proof.
  intros (_ & (d & f & t & Hd & _ & _) & _ & Hdays & _).
  assert (Hdays' : ∃ days, ns !! "daysInDestination" = Some days)
    by (destruct Hdays as [? | (n & ?)]; eauto).
  destruct Hdays' as (days & Hdays').
  assert (Hh : heap (mkstate (<[0%nat := ns]> ∅) []) !! 0%nat = Some ns)
    by apply lookup_insert_eq.
  rewrite (PayloadFacts.format_payload_run _ _ _ _ _ Hh Hdays' Hd).
  destruct (strptime d fmt_Y_m_d) as [dt|].
  - left. eexists. split; [reflexivity|]. cbn [heap trace].
    rewrite lookup_insert_eq. eauto.
  - right. eexists. split; reflexivity.
Qed.


(** *** What a normal return tells *)

Lemma request_Ret_responded request url params json σ r σ' :
  request_server_response network request url params json σ = (Ret r, σ') →
  network request url params json = Responded r.
Proof.
  unfold request_server_response, bind, emit, print, emit, sys_exit, raise, ret.
  destruct (network request url params json); intros [= <- <-]; reflexivity.
Qed.

Lemma parse_json_Ret r σ v σ' :
  parse_json r σ = (Ret v, σ') → json_body r = Some v.
Proof.
  unfold parse_json, bind, print, emit, sys_exit, ret.
  destruct (json_body r); intros [= <- <-]; reflexivity.
Qed.

Lemma subscript_str_Ret v key σ x σ' :
  subscript_str v key σ = (Ret x, σ') →
  ∃ d, v = VDict d ∧ d !! key = Some x.
Proof.
  unfold subscript_str, ret, raise.
  destruct v as [| | | | | |d]; try discriminate.
  destruct (d !! key) eqn:Hk; intros [= <- <-]; eauto.
Qed.

(** [data[0][key]] has a value only if [data] is a list that starts with
    an object. *)
Lemma first_element_Ret data key σ first σ' token σ'' :
  subscript_0 data σ = (Ret first, σ') →
  subscript_str first key σ' = (Ret token, σ'') →
  ∃ d others,
    data = VList (VDict d :: others) ∧ d !! key = Some token.
Proof.
  intros H0 H1.
  destruct (subscript_str_Ret _ _ _ _ _ H1) as (d & -> & Hk).
  unfold subscript_0, ret, raise in H0.
  destruct data as [| | | |[|c t]|[|y l]|dd]; try discriminate H0.
  injection H0 as -> _. eauto.
Qed.

(** What the server answered when [find_flight] returned a token. *)
Lemma find_flight_Ret_answer payload σ token σ' :
  find_flight network payload σ = (Ret token, σ') →
  ∃ params r body results first others,
    heap σ !! payload = Some params ∧
    network GET search_url (Some params) None = Responded r ∧
    json_body r = Some (VDict body) ∧
    body !! "_results" = Some results ∧ py_eq_zero results = false ∧
    body !! "data" = Some (VList (VDict first :: others)) ∧
    first !! "booking_token" = Some token.
Proof.
  unfold find_flight. intros H.
  apply bind_Ret_inv in H as (params & σ1 & H1 & H).
  apply deref_Ret_inv in H1 as (-> & Hh).
  apply bind_Ret_inv in H as (r & σ2 & H2 & H).
  pose proof (request_Ret_responded _ _ _ _ _ _ _ H2) as Hn.
  apply bind_Ret_inv in H as (v & σ3 & H3 & H).
  apply parse_json_Ret in H3.
  apply bind_Ret_inv in H as (results & σ4 & H4 & H).
  destruct (subscript_str_Ret _ _ _ _ _ H4) as (body & -> & Hres).
  apply bind_Ret_inv in H as (u & σ5 & H5 & H).
  assert (Hnz : py_eq_zero results = false)
    by (destruct (py_eq_zero results); [discriminate H5 | reflexivity]).
  apply bind_Ret_inv in H as (data & σ6 & H6 & H).
  destruct (subscript_str_Ret _ _ _ _ _ H6) as (body' & [= <-] & Hdata).
  apply bind_Ret_inv in H as (first & σ7 & H7 & H).
  destruct (first_element_Ret _ _ _ _ _ _ _ H7 H) as (d & others & -> & Htok).
  exists params, r, body, results, d, others. auto 10.
Qed.

(** What the server answered when [book_flight] returned a PNR. *)
Lemma book_flight_Ret_answer token pass_info currency_name σ pnr σ' :
  book_flight network token pass_info currency_name σ = (Ret pnr, σ') →
  σ' = logged σ [Request POST booking_url None
                   (Some (booking_payload token pass_info currency_name))] ∧
  ∃ r body status,
    network POST booking_url None
      (Some (booking_payload token pass_info currency_name)) = Responded r ∧
    json_body r = Some (VDict body) ∧
    body !! "status" = Some status ∧
    py_eq_str status "confirmed" = true ∧
    body !! "pnr" = Some pnr.
Proof.
  unfold book_flight. intros H.
  apply bind_Ret_inv in H as (r & σ1 & H1 & H).
  pose proof (request_Ret_responded _ _ _ _ _ _ _ H1) as Hn.
  apply request_Ret_inv in H1 as ->.
  apply bind_Ret_inv in H as (v & σ2 & H2 & H).
  destruct (json_body r) as [w|] eqn:Hj; [|discriminate H2].
  injection H2 as -> <-.
  apply bind_Ret_inv in H as (status & σ3 & H3 & H).
  destruct (subscript_str_Ret _ _ _ _ _ H3) as (body & -> & Hstatus).
  apply subscript_str_Ret_inv in H3 as ->.
  destruct (py_eq_str status "confirmed") eqn:Hc; [|discriminate H].
  apply bind_Ret_inv in H as (again & σ4 & H4 & H).
  injection H4 as <- <-.
  destruct (subscript_str_Ret _ _ _ _ _ H) as (body' & [= <-] & Hpnr).
  apply subscript_str_Ret_inv in H as ->.
  split; [reflexivity|]. exists r, body, status. auto.
Qed.

(** X10: the program returns normally only after a confirmed booking.  The
    trace is the search request, the booking request for the token of the
    first flight of the search answer, and the print of the PNR of a
    booking answer whose status is ["confirmed"]. *)
Theorem normal_return_means_confirmed_booking argv u σ :
  main network argv initial_state = (Ret u, σ) →
  ∃ params token pnr search found first others booking confirmation status,
    trace σ =
      [Request GET search_url (Some params) None;
       Request POST booking_url None
         (Some (booking_payload token passenger_info currency));
       Print (StrOf pnr)] ∧
    network GET search_url (Some params) None = Responded search ∧
    json_body search = Some (VDict found) ∧
    found !! "data" = Some (VList (VDict first :: others)) ∧
    first !! "booking_token" = Some token ∧
    network POST booking_url None
      (Some (booking_payload token passenger_info currency))
    = Responded booking ∧
    json_body booking = Some (VDict confirmation) ∧
    confirmation !! "status" = Some status ∧
    py_eq_str status "confirmed" = true ∧
    confirmation !! "pnr" = Some pnr.
Proof.
  intros Hrun.
  destruct (parse_cases argv) as [(ns & H) | [(message & H) | (H & _)]];
    [| rewrite (main_usage _ _ H) in Hrun; discriminate Hrun
     | rewrite (main_help _ H) in Hrun; discriminate Hrun].
  rewrite (main_parsed _ _ H) in Hrun.
  apply bind_Ret_inv in Hrun as (payload & σ1 & Hf & Hrun).
  destruct (PayloadFacts.format_payload_Ret_same _ _ _ _ Hf) as (_ & Ht1 & _).
  apply bind_Ret_inv in Hrun as (token & σ2 & Hs & Hrun).
  destruct (find_flight_Ret_answer _ _ _ _ Hs)
    as (params & search & found & results & first & others
        & Hp & Hn & Hj & _ & _ & Hdata & Htok).
  destruct (find_flight_Ret_inv _ _ _ _ _ Hs) as (params' & Hp' & ->).
  rewrite Hp in Hp'. injection Hp' as <-.
  apply bind_Ret_inv in Hrun as (pnr & σ3 & Hb & Hrun).
  destruct (book_flight_Ret_answer _ _ _ _ _ _ Hb)
    as (-> & booking & confirmation & status & Hn' & Hj' & Hst & Hc & Hpnr).
  injection Hrun as _ <-.
  exists params, token, pnr, search, found, first, others,
    booking, confirmation, status.
  split; [|auto 10].
  unfold logged. cbn [trace]. rewrite Ht1. reflexivity.
Qed.

(** *** Answers that cannot be used *)

(** X11: a search answer that is not JSON makes the program print the
    invalid-response message with the response and exit with code 1; no
    booking request is sent. *)
Theorem undecodable_search_exits_1 argv payload σ params r :
  reaches_search argv payload σ →
  heap σ !! payload = Some params →
  network GET search_url (Some params) None = Responded r →
  json_body r = None →
  ∃ σ',
    main network argv initial_state = (Exit 1, σ') ∧
    trace σ' = [Request GET search_url (Some params) None;
                Print (TextResponse invalid_response_message r)].
Proof.
  intros Hsearch Hh Hn Hj.
  destruct (main_from_search network _ _ _ Hsearch) as (Htrace & ->).
  erewrite bind_Exit.
  2: { unfold find_flight.
       rewrite (bind_Ret _ _ _ _ _ (deref_run _ _ _ Hh)).
       rewrite (bind_Ret _ _ _ _ _ (request_responded _ _ _ _ _ _ _ Hn)).
       unfold parse_json at 1. rewrite Hj. reflexivity. }
  eexists. split; [reflexivity|].
  unfold logged. cbn [trace]. rewrite Htrace. reflexivity.
Qed.

(** X12: a booking answer that is not JSON makes the program print the
    invalid-response message of the booking server with the response and
    exit with code 1; no PNR is printed. *)
Theorem undecodable_booking_exits_1 argv params token σ r :
  reaches_booking network argv params token σ →
  network POST booking_url None
    (Some (booking_payload token passenger_info currency)) = Responded r →
  json_body r = None →
  ∃ σ',
    main network argv initial_state = (Exit 1, σ') ∧
    trace σ' = [Request GET search_url (Some params) None;
                Request POST booking_url None
                  (Some (booking_payload token passenger_info currency));
                Print (TextResponse invalid_booking_message r)].
Proof.
  intros Hbook Hn Hj.
  destruct (main_from_booking network _ _ _ _ Hbook) as (Htrace & ->).
  erewrite bind_Exit.
  2: { unfold book_flight.
       rewrite (bind_Ret _ _ _ _ _ (request_responded _ _ _ _ _ _ _ Hn)).
       rewrite Hj. reflexivity. }
  eexists. split; [reflexivity|].
  unfold logged. cbn [trace]. rewrite Htrace. reflexivity.
Qed.

(** X13: a booking answer whose status is ["confirmed"] but which has no
    ["pnr"] ends the program in a [KeyError] that nothing catches, after
    the booking request was sent; nothing is printed. *)
Theorem confirmed_without_pnr_raises argv params token σ r body status :
  reaches_booking network argv params token σ →
  network POST booking_url None
    (Some (booking_payload token passenger_info currency)) = Responded r →
  json_body r = Some (VDict body) →
  body !! "status" = Some status →
  py_eq_str status "confirmed" = true →
  body !! "pnr" = None →
  ∃ σ',
    main network argv initial_state = (Raise (KeyError (VStr "pnr")), σ') ∧
    trace σ' = [Request GET search_url (Some params) None;
                Request POST booking_url None
                  (Some (booking_payload token passenger_info currency))].
Proof.
  intros Hbook Hn Hj Hst Hc Hpnr.
  destruct (main_from_booking network _ _ _ _ Hbook) as (Htrace & ->).
  erewrite bind_Raise.
  2: { rewrite (book_flight_answered _ _ _ _ _ _ _ Hn Hj).
       unfold subscript_str at 1. rewrite Hst.
       unfold bind at 1, ret at 1. rewrite Hc.
       unfold subscript_str. rewrite Hpnr. reflexivity. }
  eexists. split; [reflexivity|].
  unfold logged. cbn [trace]. rewrite Htrace. reflexivity.
Qed.

(** X14: an answer that is JSON but not an object (a list, a string, a
    number, [null]) ends [find_flight], and [book_flight], in a
    [TypeError] that nothing catches, right after the request. *)
Theorem non_object_json_raises v :
  (∀ d, v ≠ VDict d) →
  (∀ payload σ params r,
     heap σ !! payload = Some params →
     network GET search_url (Some params) None = Responded r →
     json_body r = Some v →
     find_flight network payload σ
     = (Raise TypeError, logged σ [Request GET search_url (Some params) None]))
  ∧
  (∀ token pass_info currency_name σ r,
     network POST booking_url None
       (Some (booking_payload token pass_info currency_name)) = Responded r →
     json_body r = Some v →
     book_flight network token pass_info currency_name σ
     = (Raise TypeError,
        logged σ [Request POST booking_url None
                    (Some (booking_payload token pass_info currency_name))])).
Proof.
  intros Hv. split.
  - intros payload σ params r Hh Hn Hj.
    rewrite (find_flight_answered _ _ _ _ _ _ Hh Hn Hj).
    destruct v as [| | | | | |d]; try reflexivity.
    destruct (Hv d). reflexivity.
  - intros token pass_info currency_name σ r Hn Hj.
    rewrite (book_flight_answered _ _ _ _ _ _ _ Hn Hj).
    destruct v as [| | | | | |d]; try reflexivity.
    destruct (Hv d). reflexivity.
Qed.

End Network.
(** *** The properties on sample runs *)

Definition no_json : net_result := Responded (mkResponse 502 None).




Lemma normal_return_means_confirmed_booking_witness :
  ∃ params token pnr search found first others booking confirmation status,
    [sample_search; sample_booking; Print (StrOf (VStr "ABC987"))] =
      [Request GET search_url (Some params) None;
       Request POST booking_url None
         (Some (booking_payload token passenger_info currency));
       Print (StrOf pnr)] ∧
    scripted (json_response (VDict found_body))
             (json_response (VDict confirmed_body))
      GET search_url (Some params) None = Responded search ∧
    json_body search = Some (VDict found) ∧
    found !! "data" = Some (VList (VDict first :: others)) ∧
    first !! "booking_token" = Some token ∧
    scripted (json_response (VDict found_body))
             (json_response (VDict confirmed_body))
      POST booking_url None
      (Some (booking_payload token passenger_info currency))
    = Responded booking ∧
    json_body booking = Some (VDict confirmation) ∧
    confirmation !! "status" = Some status ∧
    py_eq_str status "confirmed" = true ∧
    confirmation !! "pnr" = Some pnr.
Proof.
  apply (normal_return_means_confirmed_booking
           (scripted (json_response (VDict found_body))
                     (json_response (VDict confirmed_body)))
           sample_argv tt
           (mkstate (<[0%nat := sample_params]> ∅)
              [sample_search; sample_booking; Print (StrOf (VStr "ABC987"))])).
  vm_compute. reflexivity.
Defined.

Lemma undecodable_search_exits_1_witness :
  ∃ σ',
    main (scripted no_json no_json) sample_argv initial_state = (Exit 1, σ') ∧
    trace σ' = [Request GET search_url (Some sample_params) None;
                Print (TextResponse invalid_response_message
                         (mkResponse 502 None))].
Proof.
  apply (undecodable_search_exits_1 (scripted no_json no_json)
           sample_argv 0%nat sample_search_state sample_params
           (mkResponse 502 None)).
  - apply sample_reaches_search.
  - reflexivity.
  - reflexivity.
  - reflexivity.
Defined.

Lemma undecodable_booking_exits_1_witness :
  ∃ σ',
    main (scripted (json_response (VDict found_body)) no_json)
         sample_argv initial_state = (Exit 1, σ') ∧
    trace σ' = [Request GET search_url (Some sample_params) None;
                Request POST booking_url None
                  (Some (booking_payload (VStr "TOK123") passenger_info currency));
                Print (TextResponse invalid_booking_message
                         (mkResponse 502 None))].
Proof.
  apply (undecodable_booking_exits_1
           (scripted (json_response (VDict found_body)) no_json)
           sample_argv sample_params (VStr "TOK123") sample_booking_state
           (mkResponse 502 None)).
  - apply sample_reaches_booking.
  - reflexivity.
  - reflexivity.
Defined.

Definition confirmed_only_body : gmap string pyval :=
  <["status" := VStr "confirmed"]> ∅.

Lemma confirmed_without_pnr_raises_witness :
  ∃ σ',
    main (scripted (json_response (VDict found_body))
                   (json_response (VDict confirmed_only_body)))
         sample_argv initial_state
    = (Raise (KeyError (VStr "pnr")), σ') ∧
    trace σ' = [Request GET search_url (Some sample_params) None;
                Request POST booking_url None
                  (Some (booking_payload (VStr "TOK123") passenger_info currency))].
Proof.
  apply (confirmed_without_pnr_raises
           (scripted (json_response (VDict found_body))
                     (json_response (VDict confirmed_only_body)))
           sample_argv sample_params (VStr "TOK123") sample_booking_state
           (mkResponse 200 (Some (VDict confirmed_only_body)))
           confirmed_only_body (VStr "confirmed")).
  - apply sample_reaches_booking.
  - reflexivity.
  - reflexivity.
  - reflexivity.
  - reflexivity.
  - reflexivity.
Defined.

Lemma non_object_json_raises_witness :
  (find_flight (scripted (json_response (VList [])) (json_response (VList [])))
               0%nat sample_search_state
   = (Raise TypeError, sample_booking_state))
  ∧
  (book_flight (scripted (json_response (VList [])) (json_response (VList [])))
               (VStr "TOK123") passenger_info currency sample_booking_state
   = (Raise TypeError, logged sample_booking_state [sample_booking])).
Proof.
  assert (Hv : ∀ d, VList [] ≠ VDict d) by discriminate.
  split.
  - apply (proj1 (non_object_json_raises
                    (scripted (json_response (VList [])) (json_response (VList [])))
                    (VList []) Hv)
             0%nat sample_search_state sample_params
             (mkResponse 200 (Some (VList [])))); reflexivity.
  - apply (proj2 (non_object_json_raises
                    (scripted (json_response (VList [])) (json_response (VList [])))
                    (VList []) Hv)
             (VStr "TOK123") passenger_info currency sample_booking_state
             (mkResponse 200 (Some (VList [])))); reflexivity.
Defined.

End DriverFacts.

(** ** Formatting the same arguments twice *)

Module SecondCallFacts.
Import Datetime BookFlight Run.

(** ['%Y'] wants four digits: a text with a slash in third place has no
    match. *)
Lemma re_Y_slash a b rest :
  re_Y (String a (String b (String "/" rest))) = [].
Proof.
  unfold re_Y. cbn [range].
  destruct (digit a) as [va|]; [|reflexivity].
  destruct ((0 <=? va)%Z && (va <=? 9)%Z); [|reflexivity].
  cbn [mbind list_bind range].
  destruct (digit b) as [vb|]; [|reflexivity].
  destruct ((0 <=? vb)%Z && (vb <=? 9)%Z); reflexivity.
Qed.

(** The text the formatter writes does not parse as its input format. *)
Lemma reformatted_date_rejected dt :
  strptime (strftime dt fmt_d_m_Y) fmt_Y_m_d = None.
Proof.
  destruct dt as [y m d]. unfold strptime, fmt_Y_m_d.
  rewrite DatetimeFacts.strftime_d_m_Y_eq. unfold pad2 at 1.
  cbv [String.append]. cbn [re_match]. rewrite re_Y_slash. reflexivity.
Qed.

(** X15: the formatter cannot be applied twice to the same arguments.
    After a call that returned, a second call on the payload, which is the
    arguments object, never returns: if the days were [None] the attribute
    is gone and the call ends in an [AttributeError]; otherwise the date,
    now [DD/MM/YYYY], is refused and the call exits with code 2. *)
Theorem second_call_never_returns args σ payload σ1 :
  format_payload_for_get_request args σ = (Ret payload, σ1) →
  ∃ before days,
    heap σ !! args = Some before ∧
    before !! "daysInDestination" = Some days ∧
    (days = VNone →
       format_payload_for_get_request payload σ1
       = (Raise (AttributeError "daysInDestination"), σ1)) ∧
    (days ≠ VNone →
       ∃ σ2,
         format_payload_for_get_request payload σ1 = (Exit 2, σ2) ∧
         trace σ2 = trace σ ++ [Print (Text date_format_message)]).
Proof.
  intros Hrun.
  destruct (PayloadFacts.format_payload_Ret_inv _ _ _ _ Hrun)
    as (d & days & s & dt & Hh & Hdays & Hdate & Hparse).
  rewrite (PayloadFacts.format_payload_run _ _ _ _ _ Hh Hdays Hdate), Hparse
    in Hrun.
  injection Hrun as <- <-.
  exists d, days. split; [exact Hh|]. split; [exact Hdays|]. split.
  - intros ->. unfold format_payload_for_get_request, getattr.
    rewrite bind_assoc.
    erewrite bind_Ret by (apply deref_run; cbn [heap]; apply lookup_insert_eq).
    cbn [PayloadFacts.with_trip_type].
    rewrite lookup_insert_ne, lookup_delete_eq by discriminate. reflexivity.
  - intros Hne.
    erewrite PayloadFacts.format_payload_run.
    2: { cbn [heap]. apply lookup_insert_eq. }
    2: { rewrite lookup_insert_ne by discriminate.
         unfold PayloadFacts.with_trip_type.
         destruct days; try congruence;
           rewrite lookup_insert_ne by discriminate; exact Hdays. }
    2: { apply lookup_insert_eq. }
    change (strptime _ fmt_Y_m_d)
      with (strptime (strftime dt fmt_d_m_Y) fmt_Y_m_d).
    rewrite reformatted_date_rejected. eexists. split; reflexivity.
Qed.

Lemma second_call_never_returns_witness :
  ∃ before days,
    heap (PayloadFacts.state_with PayloadFacts.oneway_namespace) !! 0%nat
    = Some before ∧
    before !! "daysInDestination" = Some days ∧
    (days = VNone →
       format_payload_for_get_request 0%nat
         (snd (format_payload_for_get_request 0%nat
                 (PayloadFacts.state_with PayloadFacts.oneway_namespace)))
       = (Raise (AttributeError "daysInDestination"),
          snd (format_payload_for_get_request 0%nat
                 (PayloadFacts.state_with PayloadFacts.oneway_namespace)))) ∧
    (days ≠ VNone →
       ∃ σ2,
         format_payload_for_get_request 0%nat
           (snd (format_payload_for_get_request 0%nat
                   (PayloadFacts.state_with PayloadFacts.oneway_namespace)))
         = (Exit 2, σ2) ∧
         trace σ2 = trace (PayloadFacts.state_with PayloadFacts.oneway_namespace)
                    ++ [Print (Text date_format_message)]).
Proof.
  apply (second_call_never_returns 0%nat
           (PayloadFacts.state_with PayloadFacts.oneway_namespace) 0%nat).
  vm_compute. reflexivity.
Defined.

End SecondCallFacts.
